(** * Verification of [scripts/generate_set_files.py]

    The script reads a YAML description of architectures and package sets and
    writes one Portage set file per (set, architecture) pair.  This file embeds
    the script in Rocq and proves the properties its specification states.

    Python objects are embedded as the inductive [pyval]; Python exceptions as
    the [Raise] results of an error monad; the file system (a tree of
    directories and files reached by resolving POSIX paths) and the standard
    streams as an explicit [world] threaded through the monad [M]. *)

From Stdlib Require Import ZArith QArith Ascii.
From stdpp Require Import gmap strings list fin_maps.

(** ** Python values

    The objects [yaml.safe_load] builds for a document of scalars, sequences
    and mappings.  A float carries the exact rational value of the (finite)
    double; a [str] is held as its UTF-8 encoding; a [dict] is the list of
    its items in insertion order. *)

#[warnings="-register-all"] Inductive pyval : Type :=
  | VNone
  | VBool (b : bool)
  | VInt (z : Z)
  | VFloat (q : Q)
  | VStr (s : string)
  | VList (l : list pyval)
  | VDict (d : list (pyval * pyval)).

(** The exceptions the script can end with. *)
Inductive exn : Type :=
  | SystemExit (code : Z)
  | KeyError (key : pyval)
  | TypeError
  | AttributeError
  | OSError
  | ValueError
  | UnicodeDecodeError.

Inductive result (A : Type) : Type :=
  | Ok (a : A)
  | Raise (e : exn).
Arguments Ok {A} a.
Arguments Raise {A} e.

Definition rbind {A B} (r : result A) (f : A -> result B) : result B :=
  match r with
  | Ok a => f a
  | Raise e => Raise e
  end.

#[global] Instance result_bind : MBind result := fun A B f r => rbind r f.
#[global] Instance result_ret : MRet result := @Ok.

(** ** Built-in operations on values *)

(** The number a bool, int or float stands for in a comparison. *)
Definition num_val (v : pyval) : option Q :=
  match v with
  | VBool b => Some (if b then 1%Q else 0%Q)
  | VInt z => Some (inject_Z z)
  | VFloat q => Some q
  | _ => None
  end.

(** [a == b]. *)
Fixpoint py_eq (a b : pyval) {struct a} : bool :=
  match a, b with
  | VNone, VNone => true
  | VStr s, VStr t => String.eqb s t
  | VList l, VList l' =>
      (fix go (l l' : list pyval) : bool :=
         match l, l' with
         | [], [] => true
         | x :: r, y :: r' => py_eq x y && go r r'
         | _, _ => false
         end) l l'
  | VDict d, VDict d' =>
      Nat.eqb (length d) (length d') &&
      (fix go (d : list (pyval * pyval)) : bool :=
         match d with
         | [] => true
         | (k, v) :: r =>
             match List.find (fun kv => py_eq k (fst kv)) d' with
             | Some (_, v') => py_eq v v'
             | None => false
             end && go r
         end) d
  | _, _ =>
      match num_val a, num_val b with
      | Some x, Some y => Qeq_bool x y
      | _, _ => false
      end
  end.

(** [d[k]] on the items of a dict, [None] when the key is missing. *)
Definition dict_lookup (k : pyval) (d : list (pyval * pyval)) : option pyval :=
  snd <$> List.find (fun kv => py_eq k (fst kv)) d.

(** [sub in s] on strings. *)
Fixpoint contains (sub s : string) : bool :=
  String.prefix sub s ||
  match s with
  | EmptyString => false
  | String _ r => contains sub r
  end.

(** [x in c]. *)
Definition py_in (x c : pyval) : result bool :=
  match c with
  | VList l => Ok (existsb (py_eq x) l)
  | VDict d =>
      match x with
      | VList _ | VDict _ => Raise TypeError          (* unhashable *)
      | _ => Ok (existsb (fun kv => py_eq x (fst kv)) d)
      end
  | VStr s =>
      match x with
      | VStr sub => Ok (contains sub s)
      | _ => Raise TypeError
      end
  | _ => Raise TypeError                              (* not iterable *)
  end.

(** [o.get(k, default)] with a string key. *)
Definition py_get (o : pyval) (k : string) (default : pyval) : result pyval :=
  match o with
  | VDict d => Ok (from_option id default (dict_lookup (VStr k) d))
  | _ => Raise AttributeError
  end.

(** [o[k]] with a string key. *)
Definition py_getitem (o : pyval) (k : string) : result pyval :=
  match o with
  | VDict d =>
      match dict_lookup (VStr k) d with
      | Some v => Ok v
      | None => Raise (KeyError (VStr k))
      end
  | _ => Raise TypeError
  end.

(** [o.items()]. *)
Definition py_items (o : pyval) : result (list (pyval * pyval)) :=
  match o with
  | VDict d => Ok d
  | _ => Raise AttributeError
  end.

(** A byte that continues a UTF-8 sequence ([10xxxxxx]). *)
Definition is_continuation (c : ascii) : bool :=
  let n := nat_of_ascii c in (128 <=? n)%nat && (n <? 192)%nat.

(** The characters of a [str]: its UTF-8 encoding cut before every byte that
    starts a sequence. *)
Fixpoint characters (s : string) : list string :=
  match s with
  | EmptyString => []
  | String c r =>
      match r with
      | String c' _ =>
          if is_continuation c' then
            match characters r with
            | x :: xs => String c x :: xs
            | [] => [String c EmptyString]
            end
          else String c EmptyString :: characters r
      | EmptyString => [String c EmptyString]
      end
  end.

(** The elements a [for] loop over [o] visits. *)
Definition py_iter (o : pyval) : result (list pyval) :=
  match o with
  | VList l => Ok l
  | VDict d => Ok (fst <$> d)
  | VStr s => Ok (VStr <$> characters s)
  | _ => Raise TypeError
  end.

(** Truth value of an object, as [not o] tests it. *)
Definition py_truthy (o : pyval) : bool :=
  match o with
  | VNone => false
  | VBool b => b
  | VInt z => negb (Z.eqb z 0%Z)
  | VFloat q => negb (Qeq_bool q 0%Q)
  | VStr s => negb (String.eqb s "")
  | VList l => negb (Nat.eqb (length l) 0)
  | VDict d => negb (Nat.eqb (length d) 0)
  end.

(** [s + o] and [o + s] where [s] is a [str]: concatenation, defined only
    when [o] is a [str] too. *)
Definition str_add (s : string) (o : pyval) : result string :=
  match o with
  | VStr t => Ok (s +:+ t)
  | _ => Raise TypeError
  end.

Definition add_str (o : pyval) (s : string) : result string :=
  match o with
  | VStr t => Ok (t +:+ s)
  | _ => Raise TypeError
  end.

(** [os.path.join(a, b)] of [posixpath]. *)
Definition os_path_join (a b : string) : string :=
  if String.prefix "/" b then b
  else if String.eqb a "" || String.eqb (String.substring (String.length a - 1) 1 a) "/"
       then a +:+ b
       else a +:+ "/" +:+ b.

(** ** The world: file system and standard streams

    The file system is a tree without links.  A node is found at a location,
    the list of names that leads to it from the root; a path is resolved to a
    location component by component, as POSIX does.  What the system may
    refuse, when a file is opened for writing, for reasons outside the tree
    (permissions, quotas, the length of a name) is the oracle [denied]; every
    file of the tree can be read. *)

Inductive node : Type :=
  | File (data : string)
  | Dir.

Record filesystem : Type := Filesystem {
  cwd : list string;                    (* location of the working directory *)
  tree : gmap (list string) node;       (* the nodes below the root *)
  denied : list string -> bool;         (* locations that cannot be opened for writing *)
}.

(** The node at a location; the root is a directory. *)
Definition node_at (f : filesystem) (loc : list string) : option node :=
  match loc with
  | [] => Some Dir
  | _ => tree f !! loc
  end.

Definition is_dir (f : filesystem) (loc : list string) : bool :=
  match node_at f loc with
  | Some Dir => true
  | _ => false
  end.

(** [c] occurs in [s]. *)
Fixpoint has_char (c : ascii) (s : string) : bool :=
  match s with
  | EmptyString => false
  | String c' r => Ascii.eqb c c' || has_char c r
  end.

(** The components of a path: the pieces between its slashes. *)
Fixpoint split_slash (s : string) : list string :=
  match s with
  | EmptyString => [EmptyString]
  | String c r =>
      if Ascii.eqb c "/" then EmptyString :: split_slash r
      else match split_slash r with
           | x :: xs => String c x :: xs
           | [] => [String c EmptyString]
           end
  end.

(** One component of a path, looked up in the directory at [loc]: an empty
    component and [.] stay, [..] goes to the parent, a name goes down.  The
    lookup fails when [loc] is not a directory. *)
Definition step (f : filesystem) (loc : list string) (c : string)
    : option (list string) :=
  if is_dir f loc then
    if String.eqb c "" || String.eqb c "." then Some loc
    else if String.eqb c ".." then Some (removelast loc)
    else Some (loc ++ [c])
  else None.

Fixpoint walk (f : filesystem) (loc : list string) (cs : list string)
    : option (list string) :=
  match cs with
  | [] => Some loc
  | c :: r =>
      match step f loc c with
      | Some loc' => walk f loc' r
      | None => None
      end
  end.

(** The location a path names, when every directory on the way exists; the
    last component need not exist.  The empty path and a path holding a null
    byte name nothing. *)
Definition resolve (f : filesystem) (p : string) : option (list string) :=
  if String.eqb p "" || has_char "000" p then None
  else walk f (if String.prefix "/" p then [] else cwd f) (split_slash p).

(** [f !! p]: the node a path leads to. *)
Definition lookup_path (p : string) (f : filesystem) : option node :=
  match resolve f p with
  | Some loc => node_at f loc
  | None => None
  end.

#[global] Instance filesystem_lookup : Lookup string node filesystem :=
  lookup_path.

(** The file system with only the root, which is the working directory, and
    nothing denied. *)
#[global] Instance filesystem_empty : Empty filesystem :=
  Filesystem [] ∅ (fun _ => false).

(** [<[p := n]> f]: the file system with the node [n] placed where [p]
    leads; used to build the file systems of the examples. *)
Definition place (p : string) (n : node) (f : filesystem) : filesystem :=
  match resolve f p with
  | Some loc => Filesystem (cwd f) (<[loc := n]> (tree f)) (denied f)
  | None => f
  end.

#[global] Instance filesystem_insert : Insert string node filesystem := place.

(** [open(p, 'w')] succeeds: the path resolves, to something that is not a
    directory and that the system does not deny. *)
Definition opens (f : filesystem) (p : string) : bool :=
  match resolve f p with
  | Some loc => negb (is_dir f loc) && negb (denied f loc)
  | None => false
  end.

(** The file system after [open(p, 'w')], writing [data] and closing; it is
    left as it was when the open fails. *)
Definition put (p : string) (data : string) (f : filesystem) : filesystem :=
  if opens f p then place p (File data) f else f.

(** What a run does to the outside, in program order. *)
Inductive event : Type :=
  | Stdout (args : list pyval)                      (* print(args...) *)
  | Stderr (text : string)                          (* sys.stderr.write(text) *)
  | WriteFile (path : string) (lines : list string) (* open(path, 'w') + writelines(lines) *).

Record world : Type := World {
  fs : filesystem;
  trace : list event;
}.

(** Computations that act on the world and may raise. *)
Definition M (A : Type) : Type := world -> world * result A.

Definition Mret {A} (a : A) : M A := fun w => (w, Ok a).

Definition Mbind {A B} (c : M A) (f : A -> M B) : M B :=
  fun w =>
    match c w with
    | (w', Ok a) => f a w'
    | (w', Raise e) => (w', Raise e)
    end.

#[global] Instance M_bind : MBind M := fun A B f c => Mbind c f.
#[global] Instance M_ret : MRet M := @Mret.

(** A pure computation inside [M]. *)
Definition lift {A} (r : result A) : M A := fun w => (w, r).

Definition raise {A} (e : exn) : M A := fun w => (w, Raise e).

Definition log (e : event) (w : world) : world :=
  World (fs w) (trace w ++ [e]).

(** [print(args...)]. *)
Definition print (args : list pyval) : M unit :=
  fun w => (log (Stdout args) w, Ok tt).

(** [sys.stderr.write(text)]. *)
Definition stderr_write (text : string) : M unit :=
  fun w => (log (Stderr text) w, Ok tt).

(** [os.path.exists(path)]. *)
Definition os_path_exists (path : string) : M bool :=
  fun w => (w, Ok (bool_decide (is_Some (fs w !! path)))).

(** [open(path, 'r')], giving the bytes the stream is opened on. *)
Definition read_file (path : string) : M string :=
  fun w =>
    match fs w !! path with
    | Some (File data) => (w, Ok data)
    | _ => (w, Raise OSError)
    end.

(** [with open(path, 'w') as f: f.writelines(lines)]: when the open succeeds
    the file is created or truncated and then holds the lines, one after the
    other; otherwise [open] raises, [ValueError] for a null byte in the path
    and [OSError] in the other cases, and nothing is written. *)
Definition write_lines (path : string) (lines : list string) : M unit :=
  fun w =>
    if opens (fs w) path then
      (World (put path (String.concat "" lines) (fs w))
             (trace w ++ [WriteFile path lines]), Ok tt)
    else if has_char "000" path then (w, Raise ValueError)
    else (w, Raise OSError).

(** A [for] loop whose body acts on the world. *)
Fixpoint for_each {A} (l : list A) (body : A -> M unit) : M unit :=
  match l with
  | [] => mret tt
  | x :: r => body x;; for_each r body
  end.

(** ** The library functions the script calls

    [str] on an object that is not a [str], and [yaml.safe_load], are not
    part of the script: they are parameters of the embedding.  [safe_load]
    stands for [yaml.safe_load] reading a text stream opened on a file with
    the given bytes, so its outcomes include the stream failing to decode
    them. *)

Inductive load_result : Type :=
  | Loaded (y : pyval)
  | YAMLError (diag : string)   (* a yaml.YAMLError whose str() is diag *)
  | Undecodable                 (* the stream raised UnicodeDecodeError *).

Class Builtins : Type := {
  builtin_str : pyval -> string;
  safe_load : string -> load_result;
}.

(** The command-line arguments [parse_args] returns. *)
Record Namespace : Type := {
  yamlfile : string;
  setsdir : string;
}.

(** The one-character string holding a line feed. *)
Definition LF : string := String "010"%char EmptyString.

(** ** The script *)

Section Script.
Context `{Builtins}.

(** [str(o)]. *)
Definition py_str (o : pyval) : string :=
  match o with
  | VStr s => s
  | _ => builtin_str o
  end.

(** [error(msg)]: write the message to standard error and exit with status 1. *)
Definition error {A} (msg : string) : M A :=
  stderr_write ("ERROR: " +:+ msg +:+ LF);;
  raise (SystemExit 1%Z).

(** The expression [is_supported] returns:
    [package is None or not arch in package.get('exclude_on', [])
     and arch in package.get('include_on', [arch])],
    with the short-circuit evaluation of [or] and [and]. *)
Definition is_supported_value (package arch : pyval) : result bool :=
  match package with
  | VNone => Ok true
  | _ =>
      exclude_on ← py_get package "exclude_on" (VList []);
      excluded ← py_in arch exclude_on;
      if negb excluded then
        include_on ← py_get package "include_on" (VList [arch]);
        py_in arch include_on
      else Ok false
  end.

(** [is_supported(package, arch)]: the [print] statement, then the
    [return]. *)
Definition is_supported (package arch : pyval) : M bool :=
  print [package; arch];;
  lift (is_supported_value package arch).

(** [parse_yaml_file(filename)]: only [yaml.YAMLError] is caught by the
    [try] statement. *)
Definition parse_yaml_file (filename : string) : M (pyval * pyval) :=
  found ← os_path_exists filename;
  (if negb found
   then error ("input file " +:+ filename +:+ " does not exist!")
   else mret tt);;
  stream ← read_file filename;
  match safe_load stream with
  | Loaded y =>
      archs ← lift (py_getitem y "eessi_archs");
      sets ← lift (py_getitem y "eessi_sets");
      mret (archs, sets)
  | YAMLError exc =>
      error ("YAML file could not be parsed." +:+ LF +:+ exc)
  | Undecodable => raise UnicodeDecodeError
  end.

(** [make_atom(package_name, package_dict)]. *)
Definition make_atom (package_name package_dict : pyval) : result string :=
  let atom := package_name in
  let package_dict :=
    if negb (py_truthy package_dict) then VDict [] else package_dict in
  has_version ← py_in (VStr "version") package_dict;
  atom ← (if has_version : bool then
            pinned ← str_add "=" atom;
            version ← py_getitem package_dict "version";
            mret (VStr ((pinned +:+ "-") +:+ py_str version))
          else mret atom);
  has_overlay ← py_in (VStr "overlay") package_dict;
  atom ← (if has_overlay : bool then
            overlay ← py_getitem package_dict "overlay";
            suffix ← str_add "::" overlay;
            qualified ← add_str atom suffix;
            mret (VStr qualified)
          else mret atom);
  add_str atom LF.

(** The list comprehension of [main]: the atoms of the packages of one set
    that are supported on [arch], in the order of [items()]. *)
Fixpoint supported_packages (pkgs : list (pyval * pyval)) (arch : pyval)
    : M (list string) :=
  match pkgs with
  | [] => mret []
  | (package_name, package_dict) :: rest =>
      keep ← is_supported package_dict arch;
      if keep : bool then
        atom ← lift (make_atom package_name package_dict);
        atoms ← supported_packages rest arch;
        mret (atom :: atoms)
      else supported_packages rest arch
  end.

(** The body of the inner loop of [main]. *)
Definition write_set_file (dir : string) (set_name set arch : pyval) : M unit :=
  pkgs ← lift (packages ← py_getitem set "packages"; py_items packages);
  atoms ← supported_packages pkgs arch;
  let set_filename :=
    os_path_join dir (py_str set_name +:+ "-" +:+ py_str arch) in
  write_lines set_filename atoms;;
  print [VStr ("Created set file " +:+ set_filename +:+ ".")].

(** The two nested loops of [main]. *)
Definition write_set_files (dir : string) (archs sets : pyval) : M unit :=
  items ← lift (py_items sets);
  for_each items (fun '(set_name, set) =>
    elems ← lift (py_iter archs);
    for_each elems (fun arch => write_set_file dir set_name set arch)).

(** [main()], given the arguments [parse_args()] returned. *)
Definition main (args : Namespace) : M unit :=
  '(archs, sets) ← parse_yaml_file (yamlfile args);
  found ← os_path_exists (setsdir args);
  (if negb found
   then error ("output directory " +:+ setsdir args +:+ " does not exist.")
   else mret tt);;
  write_set_files (setsdir args) archs sets.

End Script.

(** ** Views of a package entry used in the statements *)

(** The value of an optional attribute of a package entry; an absent entry
    has none. *)
Definition entry_field (entry : pyval) (k : string) : option pyval :=
  match entry with
  | VDict d => dict_lookup (VStr k) d
  | _ => None
  end.

(** Number of line feeds in a string. *)
Fixpoint newlines (s : string) : nat :=
  match s with
  | EmptyString => 0
  | String c r => (if Ascii.eqb c "010" then 1 else 0) + newlines r
  end.

(** The atom text of the specification (section 4.3): the package name,
    pinned to the version when there is one, then qualified with the overlay
    when there is one. *)
Definition atom_text (name : string) (version overlay : option string) : string :=
  let pinned :=
    match version with
    | Some v => "=" +:+ name +:+ "-" +:+ v
    | None => name
    end in
  match overlay with
  | Some o => pinned +:+ "::" +:+ o
  | None => pinned
  end.

(** The file writes among the events of a run, in order. *)
Definition writes_of (t : list event) : list (string * list string) :=
  t ≫= fun e => match e with WriteFile p ls => [(p, ls)] | _ => [] end.

(** The file system after a sequence of writes. *)
Definition apply_writes (ws : list (string * list string))
    (f : filesystem) : filesystem :=
  foldl (fun f '(p, ls) => put p (String.concat "" ls) f) f ws.

(** Two file systems with the same directories, the same working directory
    and the same denials: paths resolve and open alike in both. *)
Definition same_shape (f f' : filesystem) : Prop :=
  cwd f = cwd f' ∧ denied f = denied f' ∧ ∀ loc, is_dir f loc = is_dir f' loc.

(** The writes among [ws] that succeed in [f], by the location written. *)
Definition located (f : filesystem) (ws : list (string * list string))
    : list (list string * list string) :=
  ws ≫= fun '(p, ls) =>
    match resolve f p with
    | Some loc => if opens f p then [(loc, ls)] else []
    | None => []
    end.

(** The lines of the last write to [k], if any. *)
Fixpoint last_write {K} `{EqDecision K} (ws : list (K * list string)) (k : K)
    : option (list string) :=
  match ws with
  | [] => None
  | (q, ls) :: r =>
      match last_write r k with
      | Some ls' => Some ls'
      | None => if decide (q = k) then Some ls else None
      end
  end.

(** The world after the events [evs] happened in [w]. *)
Definition extend (w : world) (evs : list event) : world :=
  World (apply_writes (writes_of evs) (fs w)) (trace w ++ evs).

(** [c] is a computation that, in every world whose file system has the
    shape of [f0], adds the events [evs] and ends with [r]. *)
Definition writer {A} (f0 : filesystem) (c : M A) (evs : list event)
    (r : result A) : Prop :=
  ∀ w, same_shape f0 (fs w) -> c w = (extend w evs, r).

(** A computation whose events and result depend on the world through the
    shape of the file system only, and whose writes are the ones that
    opened. *)
Definition writer_only {A} (f0 : filesystem) (c : M A) : Prop :=
  ∃ evs r, writer f0 c evs r ∧
           Forall (fun x => opens f0 x.1 = true) (writes_of evs).


(** The lines of the set file of one set for [arch]. *)
Definition expected_atoms `{Builtins} (pkgs : list (pyval * pyval))
    (arch : pyval) : list string :=
  pkgs ≫= fun '(n, e) =>
    match is_supported_value e arch, make_atom n e with
    | Ok true, Ok atom => [atom]
    | _, _ => []
    end.

(** The writes of a run over the named sets and architectures: sets in the
    outer loop, architectures in the inner one. *)
Definition expected_writes `{Builtins} (dir : string)
    (sets : list (string * list (pyval * pyval))) (archs : list string)
    : list (string * list string) :=
  sets ≫= fun '(s, pkgs) =>
    archs ≫= fun a =>
      [(os_path_join dir (s +:+ "-" +:+ a), expected_atoms pkgs (VStr a))].

(** No package of the configuration makes the resolver or the formatter
    raise. *)
Definition formats `{Builtins} (sets : list (string * list (pyval * pyval)))
    (archs : list string) : Prop :=
  ∀ s pkgs n e a,
    (s, pkgs) ∈ sets -> (n, e) ∈ pkgs -> a ∈ archs ->
    ∃ b, is_supported_value e (VStr a) = Ok b ∧
         (b = true -> ∃ atom, make_atom n e = Ok atom).

(** The items of [eessi_sets] are the named sets [sets]. *)
Definition sets_view (sitems : list (pyval * pyval))
    (sets : list (string * list (pyval * pyval))) : Prop :=
  Forall2 (fun item s =>
    item.1 = VStr s.1 ∧
    (packages ← py_getitem item.2 "packages"; py_items packages) = Ok s.2)
    sitems sets.

(** Events of one iteration of the inner loop. *)
Definition set_file_events `{Builtins} (dir s : string)
    (pkgs : list (pyval * pyval)) (a : string) : list event :=
  let path := os_path_join dir (s +:+ "-" +:+ a) in
  ((fun p => Stdout [p.2; VStr a]) <$> pkgs) ++
  [WriteFile path (expected_atoms pkgs (VStr a));
   Stdout [VStr ("Created set file " +:+ path +:+ ".")]].


(** The YAML file of the run holds a document whose [eessi_archs] are the
    strings [archs] and whose [eessi_sets] are the named sets [sets]. *)
Definition loads `{Builtins} (args : Namespace) (w : world)
    (archs : list string) (sets : list (string * list (pyval * pyval)))
    : Prop :=
  ∃ content y sitems,
    fs w !! yamlfile args = Some (File content) ∧
    safe_load content = Loaded y ∧
    py_getitem y "eessi_archs" = Ok (VList (VStr <$> archs)) ∧
    py_getitem y "eessi_sets" = Ok (VDict sitems) ∧
    sets_view sitems sets.

(** Every set file of the configuration can be opened for writing. *)
Definition openable (f : filesystem) (dir : string)
    (sets : list (string * list (pyval * pyval))) (archs : list string)
    : Prop :=
  ∀ s pkgs a,
    (s, pkgs) ∈ sets -> a ∈ archs ->
    opens f (os_path_join dir (s +:+ "-" +:+ a)) = true.


(** ** An example run

    The end-to-end example of the specification: two architectures and one
    set [base] holding the unrestricted package [bar]; and a variant where
    [bar] is excluded on the only architecture; and one where the name of
    the set is an absolute path.  The stand-in for [yaml.safe_load] knows the
    documents of four file contents and rejects every other one; the
    stand-in for [str] knows the float [1.2]. *)

Definition example_document : pyval :=
  VDict [(VStr "eessi_archs", VList [VStr "x86_64"; VStr "aarch64"]);
         (VStr "eessi_sets",
          VDict [(VStr "base",
                  VDict [(VStr "packages", VDict [(VStr "bar", VNone)])])])].

Definition example_yaml : string :=
  "{eessi_archs: [x86_64, aarch64], eessi_sets: {base: {packages: {bar: null}}}}".

Definition excluded_document : pyval :=
  VDict [(VStr "eessi_archs", VList [VStr "aarch64"]);
         (VStr "eessi_sets",
          VDict [(VStr "base",
                  VDict [(VStr "packages",
                          VDict [(VStr "bar",
                                  VDict [(VStr "exclude_on",
                                          VList [VStr "aarch64"])])])])])].

Definition excluded_yaml : string :=
  "{eessi_archs: [aarch64], eessi_sets: {base: {packages: {bar: {exclude_on: [aarch64]}}}}}".

Definition absolute_document : pyval :=
  VDict [(VStr "eessi_archs", VList [VStr "x86_64"]);
         (VStr "eessi_sets",
          VDict [(VStr "/base",
                  VDict [(VStr "packages", VDict [(VStr "bar", VNone)])])])].

Definition absolute_yaml : string :=
  "{eessi_archs: [x86_64], eessi_sets: {/base: {packages: {bar: null}}}}".

(** The double nearest to 1.2. *)
Definition float_1_2 : Q := 5404319552844595 # 4503599627370496.

Definition example_builtins : Builtins := {|
  builtin_str v :=
    match v with
    | VFloat q => if Qeq_bool q float_1_2 then "1.2" else ""
    | _ => ""
    end;
  safe_load s :=
    if String.eqb s example_yaml then Loaded example_document
    else if String.eqb s excluded_yaml then Loaded excluded_document
    else if String.eqb s absolute_yaml then Loaded absolute_document
    else if String.eqb s "{eessi_archs: [x86_64]}"
         then Loaded (VDict [(VStr "eessi_archs", VList [VStr "x86_64"])])
         else YAMLError "mapping values are not allowed here";
|}.

Definition example_args : Namespace :=
  {| yamlfile := "sets.yml"; setsdir := "out" |}.

Definition example_world : world :=
  World (<["sets.yml" := File example_yaml]> (<["out" := Dir]> ∅)) [].

(** The example world with an older set file already in place. *)
Definition stale_world : world :=
  World (<["out/base-x86_64" := File "stale"]> (fs example_world)) [].

Definition excluded_world : world :=
  World (<["sets.yml" := File excluded_yaml]> (<["out" := Dir]> ∅)) [].


Definition excluded_sets : list (string * list (pyval * pyval)) :=
  [("base", [(VStr "bar", VDict [(VStr "exclude_on", VList [VStr "aarch64"])])])].

Definition example_sets : list (string * list (pyval * pyval)) :=
  [("base", [(VStr "bar", VNone)])].

Definition example_archs : list string := ["x86_64"; "aarch64"].

(** ** Notions used by the further properties *)

(** The result is not an exit through [sys.exit]. *)
Definition no_exit {A} (r : result A) : Prop :=
  ∀ code, r ≠ Raise (SystemExit code).

(** [p] is the path of a set file in [dir]. *)
Definition set_file_path (dir p : string) : Prop :=
  ∃ name arch : string, p = os_path_join dir (name +:+ "-" +:+ arch).

(** What the two loops of [main] may do: print a line on standard output or
    write a set file in [dir]. *)
Definition loop_event (dir : string) (e : event) : Prop :=
  match e with
  | Stdout _ => True
  | Stderr _ => False
  | WriteFile p _ => set_file_path dir p
  end.

(** [c] adds the same events in every world of the shape of [f0], all of
    them satisfying [Q], and does not end in an exit. *)
Definition run_sat {A} (f0 : filesystem) (Q : event -> Prop) (c : M A)
    : Prop :=
  ∃ evs r, writer f0 c evs r ∧ Forall Q evs ∧ no_exit r.

(** A value that is no container: [in] cannot be applied to it. *)
Definition scalar (v : pyval) : Prop :=
  match v with
  | VNone | VBool _ | VInt _ | VFloat _ => True
  | _ => False
  end.

(** ** Further example runs

    Documents for the edge cases: an empty file (which [yaml.safe_load] turns
    into [None]), two sets whose files collide on one path, a set without
    [packages] after a good one, and documents with no set or no
    architecture. *)

Definition collision_yaml : string :=
  "{eessi_archs: [b-c, c], eessi_sets: {a: {packages: {p: null}}, a-b: {packages: {q: null}}}}".

Definition collision_sets : list (string * list (pyval * pyval)) :=
  [("a", [(VStr "p", VNone)]); ("a-b", [(VStr "q", VNone)])].

Definition collision_archs : list string := ["b-c"; "c"].

Definition collision_document : pyval :=
  VDict [(VStr "eessi_archs", VList [VStr "b-c"; VStr "c"]);
         (VStr "eessi_sets",
          VDict [(VStr "a", VDict [(VStr "packages", VDict [(VStr "p", VNone)])]);
                 (VStr "a-b", VDict [(VStr "packages", VDict [(VStr "q", VNone)])])])].

Definition partial_yaml : string :=
  "{eessi_archs: [x86_64], eessi_sets: {base: {packages: {bar: null}}, extra: {}}}".

Definition partial_document : pyval :=
  VDict [(VStr "eessi_archs", VList [VStr "x86_64"]);
         (VStr "eessi_sets",
          VDict [(VStr "base", VDict [(VStr "packages", VDict [(VStr "bar", VNone)])]);
                 (VStr "extra", VDict [])])].

Definition no_sets_yaml : string := "{eessi_archs: 5, eessi_sets: {}}".

Definition no_archs_yaml : string := "{eessi_archs: [], eessi_sets: {base: 7}}".

Definition edge_builtins : Builtins := {|
  builtin_str _ := "";
  safe_load s :=
    if String.eqb s "" then Loaded VNone
    else if String.eqb s collision_yaml then Loaded collision_document
    else if String.eqb s partial_yaml then Loaded partial_document
    else if String.eqb s no_sets_yaml
         then Loaded (VDict [(VStr "eessi_archs", VInt 5);
                             (VStr "eessi_sets", VDict [])])
    else if String.eqb s no_archs_yaml
         then Loaded (VDict [(VStr "eessi_archs", VList []);
                             (VStr "eessi_sets", VDict [(VStr "base", VInt 7)])])
    else YAMLError "could not find expected ':'";
|}.

(** The world whose input file holds [content], with the output directory. *)
Definition world_with (content : string) : world :=
  World (<["sets.yml" := File content]> (<["out" := Dir]> ∅)) [].

(** Unfolding of the binds of the error monad. *)
Ltac rsimpl := cbn [mbind mret result_bind result_ret rbind].

(** ** Facts about the built-in operations *)

Lemma append_assoc (a b c : string) : (a +:+ b) +:+ c = a +:+ b +:+ c.
Proof.
  induction a as [|x a IH]; [reflexivity|].
  change (String x ((a +:+ b) +:+ c) = String x (a +:+ b +:+ c)).
  by rewrite IH.
Qed.

Lemma newlines_append (a b : string) :
  newlines (a +:+ b) = newlines a + newlines b.
Proof.
  induction a as [|x a IH]; [reflexivity|].
  change (newlines (String x (a +:+ b)) =
          newlines (String x a) + newlines b).
  simpl. rewrite IH. lia.
Qed.

(** Only the string itself compares equal to a string. *)
Lemma py_eq_str (s : string) (v : pyval) :
  py_eq (VStr s) v = true <-> v = VStr s.
Proof.
  destruct v; simpl; try (split; [discriminate | discriminate]).
  rewrite String.eqb_eq. split; [by intros -> | by intros [= ->]].
Qed.

Lemma py_eq_str_refl (s : string) : py_eq (VStr s) (VStr s) = true.
Proof. by apply py_eq_str. Qed.

(** Membership of a string in a list is membership of that very value. *)
Lemma existsb_py_eq_str (s : string) (l : list pyval) :
  existsb (py_eq (VStr s)) l = true <-> VStr s ∈ l.
Proof.
  rewrite existsb_exists. split.
  - intros (v & Hin & Heq). apply py_eq_str in Heq as ->.
    by apply list_elem_of_In.
  - intros Hin. exists (VStr s). split; [by apply list_elem_of_In|].
    apply py_eq_str_refl.
Qed.

(** A key is in a dict exactly when looking it up finds a value. *)
Lemma existsb_dict_lookup (k : pyval) (d : list (pyval * pyval)) :
  existsb (fun kv => py_eq k (fst kv)) d =
  match dict_lookup k d with Some _ => true | None => false end.
Proof.
  unfold dict_lookup.
  induction d as [|[k' v] d IH]; [reflexivity|]; simpl.
  destruct (py_eq k k'); [reflexivity|]. apply IH.
Qed.

Lemma py_in_str_dict (s : string) (d : list (pyval * pyval)) :
  py_in (VStr s) (VDict d) =
  Ok (match dict_lookup (VStr s) d with Some _ => true | None => false end).
Proof. unfold py_in. by rewrite existsb_dict_lookup. Qed.

(** The dictionary [make_atom] works on, once an absent or empty entry has
    been replaced by the empty dictionary. *)
Lemma falsy_entry_is_empty (d : list (pyval * pyval)) :
  (if negb (py_truthy (VDict d)) then VDict [] else VDict d) = VDict d.
Proof. by destruct d. Qed.

Lemma is_supported_run (package arch : pyval) (w : world) :
  is_supported package arch w =
  (log (Stdout [package; arch]) w, is_supported_value package arch).
Proof. reflexivity. Qed.

Lemma is_supported_value_lists (d : list (pyval * pyval)) (arch : string)
    (ex inc : list pyval) :
  from_option id (VList []) (dict_lookup (VStr "exclude_on") d) = VList ex ->
  from_option id (VList [VStr arch]) (dict_lookup (VStr "include_on") d) = VList inc ->
  is_supported_value (VDict d) (VStr arch) =
  Ok (negb (existsb (py_eq (VStr arch)) ex) && existsb (py_eq (VStr arch)) inc).
Proof.
  intros Hex Hinc. unfold is_supported_value, py_get.
  rewrite Hex. cbn. destruct (existsb _ ex); cbn; [reflexivity|].
  rewrite Hinc. reflexivity.
Qed.

Lemma make_atom_dict `{Builtins} (name : string) (d : list (pyval * pyval))
    (overlay : option string) :
  dict_lookup (VStr "overlay") d = VStr <$> overlay ->
  make_atom (VStr name) (VDict d) =
  Ok (atom_text name (py_str <$> dict_lookup (VStr "version") d) overlay +:+ LF).
Proof.
  intros Hov. unfold make_atom. rewrite falsy_entry_is_empty.
  rewrite !py_in_str_dict. unfold py_getitem. rewrite Hov.
  destruct (dict_lookup (VStr "version") d) as [v|], overlay as [o|];
    cbn [mbind mret result_bind result_ret rbind fmap option_fmap option_map
         str_add add_str atom_text];
    by rewrite ?append_assoc.
Qed.

Lemma newlines_atom_text (name : string) (version overlay : option string) :
  newlines name = 0 ->
  (∀ v, version = Some v -> newlines v = 0) ->
  (∀ o, overlay = Some o -> newlines o = 0) ->
  newlines (atom_text name version overlay +:+ LF) = 1.
Proof.
  intros Hn Hv Ho. unfold atom_text.
  destruct version as [v|], overlay as [o|]; rewrite ?newlines_append;
    rewrite ?Hn, ?(Hv v eq_refl), ?(Ho o eq_refl); reflexivity.
Qed.

(** ** Facts about the file system *)

Lemma same_shape_refl f : same_shape f f.
Proof. by repeat split. Qed.

Lemma same_shape_sym f f' : same_shape f f' -> same_shape f' f.
Proof. intros (Hc & Hd & Hdir). by repeat split. Qed.

Lemma same_shape_trans f f' f'' :
  same_shape f f' -> same_shape f' f'' -> same_shape f f''.
Proof.
  intros (Hc & Hd & Hdir) (Hc' & Hd' & Hdir').
  split; [congruence|]. split; [congruence|]. intros loc.
  by rewrite Hdir.
Qed.

Lemma step_same_shape f f' loc c :
  same_shape f f' -> step f loc c = step f' loc c.
Proof. intros (_ & _ & Hdir). unfold step. by rewrite Hdir. Qed.

Lemma walk_same_shape f f' loc cs :
  same_shape f f' -> walk f loc cs = walk f' loc cs.
Proof.
  intros Hs. revert loc. induction cs as [|c cs IH]; intros loc; [done|].
  simpl. rewrite (step_same_shape f f' loc c Hs).
  destruct (step f' loc c); [apply IH|done].
Qed.

Lemma resolve_same_shape f f' p :
  same_shape f f' -> resolve f p = resolve f' p.
Proof.
  intros Hs. unfold resolve. rewrite (walk_same_shape f f' _ _ Hs).
  by destruct Hs as (-> & _).
Qed.

Lemma opens_same_shape f f' p :
  same_shape f f' -> opens f p = opens f' p.
Proof.
  intros Hs. unfold opens. rewrite (resolve_same_shape f f' p Hs).
  destruct Hs as (_ & -> & Hdir). destruct (resolve f' p); [|done].
  by rewrite Hdir.
Qed.

(** A write changes no directory. *)
Lemma same_shape_put p data f : same_shape f (put p data f).
Proof.
  unfold put, opens, place.
  destruct (resolve f p) as [loc|]; [|apply same_shape_refl].
  destruct (is_dir f loc) eqn:Hdir; [apply same_shape_refl|].
  destruct (denied f loc); [apply same_shape_refl|]. simpl.
  split; [done|]. split; [done|]. intros l. unfold is_dir, node_at. simpl.
  destruct l as [|c l]; [done|].
  destruct (decide (loc = c :: l)) as [->|Hne].
  - rewrite lookup_insert_eq. unfold is_dir, node_at in Hdir.
    by destruct (tree f !! (c :: l)) as [[]|].
  - by rewrite lookup_insert_ne.
Qed.

Lemma same_shape_apply_writes ws f : same_shape f (apply_writes ws f).
Proof.
  revert f. induction ws as [|[p ls] ws IH]; intros f; [apply same_shape_refl|].
  eapply same_shape_trans; [apply (same_shape_put p (String.concat "" ls))|].
  apply IH.
Qed.

(** The tree after a write. *)
Lemma tree_put p data f loc :
  tree (put p data f) !! loc =
  if opens f p && bool_decide (resolve f p = Some loc)
  then Some (File data) else tree f !! loc.
Proof.
  unfold put. destruct (opens f p) eqn:Hop; [|done]. simpl.
  unfold opens in Hop. unfold place.
  destruct (resolve f p) as [loc'|]; [|done]. simpl.
  case_bool_decide as Heq.
  - injection Heq as ->. by rewrite lookup_insert_eq.
  - rewrite lookup_insert_ne; [done|congruence].
Qed.

Lemma located_same_shape f f' ws :
  same_shape f f' -> located f ws = located f' ws.
Proof.
  intros Hs. unfold located. apply list_bind_ext; [|done]. intros [p ls].
  by rewrite (resolve_same_shape f f' p Hs), (opens_same_shape f f' p Hs).
Qed.

Lemma located_cons f p ls ws :
  located f ((p, ls) :: ws) =
  match resolve f p with
  | Some loc => if opens f p then [(loc, ls)] else []
  | None => []
  end ++ located f ws.
Proof. reflexivity. Qed.

Lemma located_app f ws1 ws2 :
  located f (ws1 ++ ws2) = located f ws1 ++ located f ws2.
Proof. unfold located. apply bind_app. Qed.

(** The tree after a sequence of writes: the last write to a location
    wins. *)
Lemma tree_apply_writes ws f loc :
  tree (apply_writes ws f) !! loc =
  match last_write (located f ws) loc with
  | Some ls => Some (File (String.concat "" ls))
  | None => tree f !! loc
  end.
Proof.
  revert f. induction ws as [|[p ls] ws IH]; intros f; [reflexivity|].
  change (apply_writes ((p, ls) :: ws) f)
    with (apply_writes ws (put p (String.concat "" ls) f)).
  rewrite IH, <- (located_same_shape f _ ws (same_shape_put p _ f)).
  rewrite located_cons, tree_put.
  destruct (resolve f p) as [loc'|] eqn:Hres; simpl.
  - destruct (opens f p); simpl.
    + destruct (last_write (located f ws) loc); [done|].
      case_bool_decide as Heq.
      * injection Heq as ->. by destruct (decide (loc = loc)).
      * destruct (decide (loc' = loc)) as [->|]; [by destruct Heq|done].
    + done.
  - rewrite andb_false_r. done.
Qed.

Lemma last_write_not_nil f ws ls : last_write (located f ws) [] = Some ls -> False.
Proof.
  induction ws as [|[p l] ws IH]; [done|]. rewrite located_cons.
  destruct (resolve f p) as [loc|] eqn:Hres; [|exact IH].
  unfold opens. rewrite Hres.
  destruct (is_dir f loc) eqn:Hd; simpl; [exact IH|].
  destruct (denied f loc); simpl; [exact IH|].
  destruct (last_write (located f ws) []); [exact IH|].
  destruct (decide (loc = [])) as [->|]; [|done]. discriminate Hd.
Qed.

Lemma node_at_apply_writes ws f loc :
  node_at (apply_writes ws f) loc =
  match last_write (located f ws) loc with
  | Some ls => Some (File (String.concat "" ls))
  | None => node_at f loc
  end.
Proof.
  destruct loc as [|c loc].
  - simpl. destruct (last_write (located f ws) []) eqn:Hlw; [|done].
    by destruct (last_write_not_nil f ws l).
  - apply tree_apply_writes.
Qed.

(** What a path leads to after a sequence of writes. *)
Lemma lookup_apply_writes ws f (p : string) :
  apply_writes ws f !! p =
  match resolve f p with
  | Some loc =>
      match last_write (located f ws) loc with
      | Some ls => Some (File (String.concat "" ls))
      | None => node_at f loc
      end
  | None => None
  end.
Proof.
  unfold lookup, filesystem_lookup, lookup_path.
  rewrite <- (resolve_same_shape f _ p (same_shape_apply_writes ws f)).
  destruct (resolve f p) as [loc|]; [|done]. apply node_at_apply_writes.
Qed.

Lemma apply_writes_app ws1 ws2 f :
  apply_writes (ws1 ++ ws2) f = apply_writes ws2 (apply_writes ws1 f).
Proof. apply foldl_app. Qed.

Lemma cwd_apply_writes ws f : cwd (apply_writes ws f) = cwd f.
Proof. by destruct (same_shape_apply_writes ws f) as (-> & _). Qed.

Lemma denied_apply_writes ws f : denied (apply_writes ws f) = denied f.
Proof. by destruct (same_shape_apply_writes ws f) as (_ & -> & _). Qed.

Lemma filesystem_eq f f' :
  cwd f = cwd f' -> denied f = denied f' -> tree f = tree f' -> f = f'.
Proof. destruct f, f'. simpl. by intros -> -> ->. Qed.

(** Writing the same files again changes nothing. *)
Lemma apply_writes_idemp ws f :
  apply_writes ws (apply_writes ws f) = apply_writes ws f.
Proof.
  apply filesystem_eq.
  - by rewrite !cwd_apply_writes.
  - by rewrite !denied_apply_writes.
  - apply map_eq. intros loc. rewrite tree_apply_writes.
    rewrite <- (located_same_shape f _ ws (same_shape_apply_writes ws f)).
    rewrite tree_apply_writes. by destruct (last_write (located f ws) loc).
Qed.

Lemma apply_writes_is_Some ws f (p : string) :
  is_Some (f !! p) -> is_Some (apply_writes ws f !! p).
Proof.
  rewrite lookup_apply_writes. unfold lookup, filesystem_lookup, lookup_path.
  destruct (resolve f p) as [loc|]; [|done].
  by destruct (last_write (located f ws) loc).
Qed.

(** ** Facts about runs *)

Lemma writes_of_app (t1 t2 : list event) :
  writes_of (t1 ++ t2) = writes_of t1 ++ writes_of t2.
Proof. unfold writes_of. apply bind_app. Qed.

Lemma extend_nil w : extend w [] = w.
Proof. destruct w. unfold extend. simpl. by rewrite app_nil_r. Qed.

Lemma extend_extend w e1 e2 : extend (extend w e1) e2 = extend w (e1 ++ e2).
Proof.
  unfold extend. simpl.
  by rewrite writes_of_app, apply_writes_app, app_assoc.
Qed.

Lemma same_shape_extend f0 w evs :
  same_shape f0 (fs w) -> same_shape f0 (fs (extend w evs)).
Proof.
  intros Hs. eapply same_shape_trans; [exact Hs|].
  apply same_shape_apply_writes.
Qed.

Lemma last_write_NoDup {K} `{EqDecision K} (ws : list (K * list string)) k ls :
  NoDup ws.*1 -> (k, ls) ∈ ws -> last_write ws k = Some ls.
Proof.
  induction ws as [|[q ls'] ws IH]; intros Hnd Hin; [by apply elem_of_nil in Hin|].
  simpl in Hnd. apply NoDup_cons in Hnd as [Hq Hnd].
  apply elem_of_cons in Hin as [[= <- <-]|Hin]; simpl.
  - destruct (last_write ws k) as [ls'|] eqn:Hlw.
    + exfalso. apply Hq. clear -Hlw. induction ws as [|[q l] ws IH]; [done|].
      simpl in Hlw. destruct (last_write ws k).
      * right. by apply IH.
      * destruct (decide (q = k)) as [->|]; [left|done].
    + by rewrite decide_True.
  - rewrite (IH Hnd Hin). done.
Qed.

Lemma last_write_is_Some {K} `{EqDecision K} (ws : list (K * list string)) k :
  k ∈ ws.*1 -> is_Some (last_write ws k).
Proof.
  induction ws as [|[q ls] ws IH]; simpl; intros Hin.
  - by apply elem_of_nil in Hin.
  - destruct (last_write ws k) eqn:Hlw; [eauto|].
    apply elem_of_cons in Hin as [->|Hin].
    + rewrite decide_True by done. eauto.
    + destruct (IH Hin) as [? [=]].
Qed.

Lemma last_write_elem_of {K} `{EqDecision K} (ws : list (K * list string)) k ls :
  last_write ws k = Some ls -> (k, ls) ∈ ws.
Proof.
  induction ws as [|[q ls'] ws IH]; simpl; [done|].
  destruct (last_write ws k) as [ls''|].
  - intros [= ->]. right. by apply IH.
  - destruct (decide (q = k)) as [->|]; [|done]. intros [= ->]. left.
Qed.

(** *** Composition of writers *)

Lemma writer_ret {A} f0 (a : A) : writer f0 (mret a) [] (Ok a).
Proof. intros w _. by rewrite extend_nil. Qed.

Lemma writer_lift {A} f0 (r : result A) : writer f0 (lift r) [] r.
Proof. intros w _. by rewrite extend_nil. Qed.

Lemma writer_print f0 args : writer f0 (print args) [Stdout args] (Ok tt).
Proof. by intros w _. Qed.

Lemma writer_write_lines f0 p ls :
  opens f0 p = true ->
  writer f0 (write_lines p ls) [WriteFile p ls] (Ok tt).
Proof.
  intros Hop w Hs. unfold write_lines.
  by rewrite <- (opens_same_shape f0 (fs w) p Hs), Hop.
Qed.

Lemma writer_write_lines_raise f0 p ls :
  opens f0 p = false ->
  writer f0 (write_lines p ls) []
    (Raise (if has_char "000" p then ValueError else OSError)).
Proof.
  intros Hop w Hs. unfold write_lines.
  rewrite <- (opens_same_shape f0 (fs w) p Hs), Hop, extend_nil.
  by destruct (has_char "000" p).
Qed.

Lemma writer_bind_ok {A B} f0 (c : M A) (f : A -> M B) evs a evs' r :
  writer f0 c evs (Ok a) -> writer f0 (f a) evs' r ->
  writer f0 (c ≫= f) (evs ++ evs') r.
Proof.
  intros Hc Hf w Hs. unfold mbind, M_bind, Mbind.
  rewrite (Hc w Hs), (Hf _ (same_shape_extend f0 w evs Hs)).
  by rewrite extend_extend.
Qed.

Lemma writer_bind_raise {A B} f0 (c : M A) (f : A -> M B) evs e :
  writer f0 c evs (Raise e) -> writer f0 (c ≫= f) evs (Raise e).
Proof. intros Hc w Hs. unfold mbind, M_bind, Mbind. by rewrite (Hc w Hs). Qed.

Lemma writer_only_quiet {A} f0 (c : M A) evs r :
  writer f0 c evs r -> writes_of evs = [] -> writer_only f0 c.
Proof. intros Hc Hw. exists evs, r. split; [done|]. by rewrite Hw. Qed.

Lemma writer_only_bind {A B} f0 (c : M A) (f : A -> M B) :
  writer_only f0 c -> (∀ a, writer_only f0 (f a)) -> writer_only f0 (c ≫= f).
Proof.
  intros (evs & [a|e] & Hc & Hop) Hf.
  - destruct (Hf a) as (evs' & r & Hfa & Hop'). exists (evs ++ evs'), r.
    split; [by eapply writer_bind_ok|].
    rewrite writes_of_app. apply Forall_app. by split.
  - exists evs, (Raise e). split; [by apply writer_bind_raise|done].
Qed.

Lemma writer_only_ret {A} f0 (a : A) : writer_only f0 (mret a).
Proof. eapply writer_only_quiet; [apply writer_ret|done]. Qed.

Lemma writer_only_lift {A} f0 (r : result A) : writer_only f0 (lift r).
Proof. eapply writer_only_quiet; [apply writer_lift|done]. Qed.

Lemma writer_only_print f0 args : writer_only f0 (print args).
Proof. eapply writer_only_quiet; [apply writer_print|done]. Qed.

Lemma writer_only_for_each {A} f0 (l : list A) (body : A -> M unit) :
  (∀ x, writer_only f0 (body x)) -> writer_only f0 (for_each l body).
Proof.
  intros Hbody. induction l as [|x l IH]; simpl.
  - apply writer_only_ret.
  - apply writer_only_bind; [apply Hbody | intros _; apply IH].
Qed.

Lemma writer_only_write_lines f0 p ls : writer_only f0 (write_lines p ls).
Proof.
  destruct (opens f0 p) eqn:Hop.
  - exists [WriteFile p ls], (Ok tt). split; [by apply writer_write_lines|].
    by repeat constructor.
  - eapply writer_only_quiet; [by apply writer_write_lines_raise|done].
Qed.

Lemma writer_only_supported_packages `{Builtins} f0 pkgs arch :
  writer_only f0 (supported_packages pkgs arch).
Proof.
  induction pkgs as [|[n e] pkgs IH]; simpl.
  - apply writer_only_ret.
  - apply writer_only_bind.
    { apply writer_only_bind; [apply writer_only_print|].
      intros _. apply writer_only_lift. }
    intros [|]; [|apply IH].
    apply writer_only_bind; [apply writer_only_lift|]. intros atom.
    apply writer_only_bind; [apply IH|]. intros atoms.
    apply writer_only_ret.
Qed.

Lemma writer_only_write_set_files `{Builtins} f0 dir archs sets :
  writer_only f0 (write_set_files dir archs sets).
Proof.
  unfold write_set_files.
  apply writer_only_bind; [apply writer_only_lift|]. intros items.
  apply writer_only_for_each. intros [set_name set].
  apply writer_only_bind; [apply writer_only_lift|]. intros elems.
  apply writer_only_for_each. intros arch. unfold write_set_file.
  apply writer_only_bind; [apply writer_only_lift|]. intros pkgs.
  apply writer_only_bind; [apply writer_only_supported_packages|]. intros atoms.
  apply writer_only_bind; [apply writer_only_write_lines|]. intros _.
  apply writer_only_print.
Qed.

Lemma expected_atoms_cons `{Builtins} n e pkgs arch :
  expected_atoms ((n, e) :: pkgs) arch =
  match is_supported_value e arch, make_atom n e with
  | Ok true, Ok atom => [atom]
  | _, _ => []
  end ++ expected_atoms pkgs arch.
Proof. reflexivity. Qed.

Lemma writer_bind_ret {A B} f0 (c : M A) (g : A -> B) evs a :
  writer f0 c evs (Ok a) -> writer f0 (x ← c; mret (g x)) evs (Ok (g a)).
Proof.
  intros Hc w Hs. unfold mbind, M_bind, Mbind. by rewrite (Hc w Hs).
Qed.

Lemma writer_is_supported f0 package arch :
  writer f0 (is_supported package arch) [Stdout [package; arch]]
    (is_supported_value package arch).
Proof. by intros w _. Qed.

Lemma writer_supported_packages `{Builtins} f0 pkgs arch :
  (∀ n e, (n, e) ∈ pkgs ->
     ∃ b, is_supported_value e arch = Ok b ∧
          (b = true -> ∃ atom, make_atom n e = Ok atom)) ->
  writer f0 (supported_packages pkgs arch)
         ((fun p => Stdout [p.2; arch]) <$> pkgs)
         (Ok (expected_atoms pkgs arch)).
Proof.
  induction pkgs as [|[n e] pkgs IH]; intros Hok.
  - apply writer_ret.
  - destruct (Hok n e) as (b & Hb & Hatom); [left|].
    assert (writer f0 (supported_packages pkgs arch)
              ((fun p => Stdout [p.2; arch]) <$> pkgs)
              (Ok (expected_atoms pkgs arch))) as Hrest.
    { apply IH. intros n' e' Hin. apply Hok. by right. }
    rewrite expected_atoms_cons, Hb. cbn [supported_packages].
    change ((fun p => Stdout [p.2; arch]) <$> (n, e) :: pkgs)
      with ([Stdout [e; arch]] ++ ((fun p => Stdout [p.2; arch]) <$> pkgs)).
    eapply writer_bind_ok.
    { rewrite <- Hb. apply writer_is_supported. }
    destruct b.
    + destruct (Hatom eq_refl) as [atom ->].
      eapply (writer_bind_ok _ _ _ []); [apply writer_lift|].
      by apply (writer_bind_ret f0 _ (fun atoms => atom :: atoms)).
    + exact Hrest.
Qed.

Lemma writer_for_each {A B} f0 (l : list A) (l' : list B) (body : A -> M unit)
    (evs : B -> list event) :
  Forall2 (fun x y => writer f0 (body x) (evs y) (Ok tt)) l l' ->
  writer f0 (for_each l body) (l' ≫= evs) (Ok tt).
Proof.
  induction 1 as [|x y l l' Hx _ IH]; [apply writer_ret|].
  rewrite bind_cons. cbn [for_each].
  eapply writer_bind_ok; [exact Hx|exact IH].
Qed.

Lemma writes_of_bind {B} (l : list B) (evs : B -> list event) :
  writes_of (l ≫= evs) = l ≫= (fun y => writes_of (evs y)).
Proof.
  induction l as [|y l IH]; [reflexivity|].
  by rewrite !bind_cons, writes_of_app, IH.
Qed.

Lemma writes_of_prints {B} (l : list B) (args : B -> list pyval) :
  writes_of ((fun p => Stdout (args p)) <$> l) = [].
Proof. induction l as [|y l IH]; [reflexivity|]. exact IH. Qed.

Lemma writes_of_set_file_events `{Builtins} dir s pkgs a :
  writes_of (set_file_events dir s pkgs a) =
  [(os_path_join dir (s +:+ "-" +:+ a), expected_atoms pkgs (VStr a))].
Proof.
  unfold set_file_events. rewrite writes_of_app, writes_of_prints. reflexivity.
Qed.

Lemma writer_write_set_file `{Builtins} f0 dir s set pkgs a :
  (packages ← py_getitem set "packages"; py_items packages) = Ok pkgs ->
  (∀ n e, (n, e) ∈ pkgs ->
     ∃ b, is_supported_value e (VStr a) = Ok b ∧
          (b = true -> ∃ atom, make_atom n e = Ok atom)) ->
  opens f0 (os_path_join dir (s +:+ "-" +:+ a)) = true ->
  writer f0 (write_set_file dir (VStr s) set (VStr a))
         (set_file_events dir s pkgs a) (Ok tt).
Proof.
  intros Hpkgs Hok Hop. unfold write_set_file, set_file_events. rewrite Hpkgs.
  eapply (writer_bind_ok _ _ _ []); [apply writer_lift|]. simpl.
  eapply writer_bind_ok; [by apply writer_supported_packages|].
  eapply (writer_bind_ok _ _ _ [_] _ [_]); [by apply writer_write_lines|].
  apply writer_print.
Qed.

Lemma writer_set_loops `{Builtins} f0 dir sitems sets archs :
  sets_view sitems sets ->
  formats sets archs ->
  openable f0 dir sets archs ->
  Forall2 (fun item s =>
    writer f0
      (let '(set_name, set) := item in
       elems ← lift (py_iter (VList (VStr <$> archs)));
       for_each elems (fun arch => write_set_file dir set_name set arch))
      (archs ≫= set_file_events dir s.1 s.2) (Ok tt))
    sitems sets.
Proof.
  intros Hview Hok Hopen.
  assert (∀ s, s ∈ sets -> ∀ a, a ∈ archs ->
            opens f0 (os_path_join dir (s.1 +:+ "-" +:+ a)) = true ∧
            ∀ n e, (n, e) ∈ s.2 ->
              ∃ b, is_supported_value e (VStr a) = Ok b ∧
                   (b = true -> ∃ atom, make_atom n e = Ok atom)) as Hok'.
  { intros [s pkgs] Hs a Ha. split; [by eapply Hopen|].
    intros n e Hin. by eapply Hok. }
  clear Hok Hopen.
  induction Hview as [|[k set] [s pkgs] sitems sets [Hk Hp] _ IH];
    constructor.
  - simpl in Hk, Hp. subst k.
    eapply (writer_bind_ok _ _ _ []); [apply writer_lift|]. simpl.
    apply writer_for_each.
    assert (∀ a, a ∈ archs -> a ∈ archs) as Hsub by done. revert Hsub.
    generalize archs at 1 3 4 as l.
    induction l as [|a l IHl]; intros Hsub; constructor.
    + destruct (Hok' (s, pkgs)) with (a := a) as [Hop Hfmt];
        [left|apply Hsub; left|].
      by apply writer_write_set_file.
    + apply IHl. intros a' Ha'. apply Hsub. by right.
  - apply IH. intros s' Hs'. apply Hok'. by right.
Qed.

Lemma writer_write_set_files `{Builtins} f0 dir sitems sets archs :
  sets_view sitems sets ->
  formats sets archs ->
  openable f0 dir sets archs ->
  writer f0 (write_set_files dir (VList (VStr <$> archs)) (VDict sitems))
         (sets ≫= fun s => archs ≫= set_file_events dir s.1 s.2) (Ok tt).
Proof.
  intros Hview Hok Hopen. unfold write_set_files.
  eapply (writer_bind_ok _ _ _ []); [apply writer_lift|]. simpl.
  apply writer_for_each. by apply writer_set_loops.
Qed.

Lemma writes_of_run `{Builtins} dir sets archs :
  writes_of (sets ≫= fun s => archs ≫= set_file_events dir s.1 s.2) =
  expected_writes dir sets archs.
Proof.
  unfold expected_writes. rewrite writes_of_bind.
  induction sets as [|[s pkgs] sets IH]; [reflexivity|].
  rewrite !bind_cons, IH. f_equal. simpl. rewrite writes_of_bind.
  clear IH. induction archs as [|a archs IH]; [reflexivity|].
  by rewrite !bind_cons, IH, writes_of_set_file_events.
Qed.

Lemma fs_extend_no_writes w evs : writes_of evs = [] -> fs (extend w evs) = fs w.
Proof. intros Hw. unfold extend. simpl. by rewrite Hw. Qed.

(** ** Facts about the loader and the orchestrator *)

Lemma parse_yaml_file_step `{Builtins} f w :
  parse_yaml_file f w =
  match fs w !! f with
  | None =>
      (log (Stderr ("ERROR: " +:+ ("input file " +:+ f +:+ " does not exist!")
                    +:+ LF)) w, Raise (SystemExit 1))
  | Some Dir => (w, Raise OSError)
  | Some (File content) =>
      match safe_load content with
      | Loaded y =>
          (w, archs ← py_getitem y "eessi_archs";
              sets ← py_getitem y "eessi_sets";
              mret (archs, sets))
      | YAMLError diag =>
          (log (Stderr ("ERROR: " +:+ ("YAML file could not be parsed."
                                       +:+ LF +:+ diag) +:+ LF)) w,
           Raise (SystemExit 1))
      | Undecodable => (w, Raise UnicodeDecodeError)
      end
  end.
Proof.
  unfold parse_yaml_file, mbind, M_bind, Mbind, os_path_exists, read_file.
  destruct (fs w !! f) as [[content|]|] eqn:Hf.
  - rewrite bool_decide_eq_true_2 by eauto. cbn [negb mret M_ret Mret].
    cbv beta iota. rewrite Hf.
    destruct (safe_load content) as [y|diag|]; [|reflexivity..].
    unfold lift.
    by destruct (py_getitem y "eessi_archs"), (py_getitem y "eessi_sets").
  - rewrite bool_decide_eq_true_2 by eauto. cbn [negb mret M_ret Mret].
    cbv beta iota. by rewrite Hf.
  - rewrite bool_decide_eq_false_2 by (by intros [? ?]). reflexivity.
Qed.

Lemma parse_yaml_file_loaded `{Builtins} f w content y :
  fs w !! f = Some (File content) ->
  safe_load content = Loaded y ->
  parse_yaml_file f w =
  (w, archs ← py_getitem y "eessi_archs";
      sets ← py_getitem y "eessi_sets";
      mret (archs, sets)).
Proof. intros Hf Hy. by rewrite parse_yaml_file_step, Hf, Hy. Qed.

Lemma parse_yaml_file_malformed `{Builtins} f w content diag :
  fs w !! f = Some (File content) ->
  safe_load content = YAMLError diag ->
  parse_yaml_file f w =
  (log (Stderr ("ERROR: " +:+ ("YAML file could not be parsed." +:+ LF +:+ diag) +:+ LF)) w,
   Raise (SystemExit 1)).
Proof. intros Hf Hy. by rewrite parse_yaml_file_step, Hf, Hy. Qed.

Lemma parse_yaml_file_not_found `{Builtins} f w :
  fs w !! f = None ->
  parse_yaml_file f w =
  (log (Stderr ("ERROR: " +:+ ("input file " +:+ f +:+ " does not exist!") +:+ LF)) w,
   Raise (SystemExit 1)).
Proof. intros Hf. by rewrite parse_yaml_file_step, Hf. Qed.

Lemma parse_yaml_file_directory `{Builtins} f w :
  fs w !! f = Some Dir -> parse_yaml_file f w = (w, Raise OSError).
Proof. intros Hf. by rewrite parse_yaml_file_step, Hf. Qed.

(** The loader reads one file and writes none. *)
Lemma parse_yaml_file_reads `{Builtins} f w w' :
  fs w !! f = fs w' !! f ->
  ∃ evs r, writes_of evs = [] ∧
    parse_yaml_file f w = (extend w evs, r) ∧
    parse_yaml_file f w' = (extend w' evs, r).
Proof.
  intros Hf. rewrite !parse_yaml_file_step, <- Hf.
  destruct (fs w !! f) as [[content|]|].
  - destruct (safe_load content) as [y|diag|].
    + eexists [], _. by rewrite !extend_nil.
    + by eexists [Stderr _], _.
    + eexists [], _. by rewrite !extend_nil.
  - eexists [], _. by rewrite !extend_nil.
  - by eexists [Stderr _], _.
Qed.

Lemma main_bind_parse `{Builtins} args w w0 r :
  parse_yaml_file (yamlfile args) w = (w0, r) ->
  main args w =
  match r with
  | Ok (archs, sets) =>
      if bool_decide (is_Some (fs w0 !! setsdir args))
      then write_set_files (setsdir args) archs sets w0
      else (log (Stderr ("ERROR: " +:+ ("output directory " +:+ setsdir args
                           +:+ " does not exist.") +:+ LF)) w0,
            Raise (SystemExit 1))
  | Raise e => (w0, Raise e)
  end.
Proof.
  intros Hp. unfold main, mbind, M_bind, Mbind. rewrite Hp.
  destruct r as [[archs sets]|e]; [|reflexivity].
  unfold os_path_exists. by destruct (bool_decide _).
Qed.

(** A run of [main] is determined by the input file, by whether the output
    directory exists and by the shape of the file system; it writes nothing
    when the directory is missing. *)
Lemma main_run `{Builtins} args w w' :
  fs w !! yamlfile args = fs w' !! yamlfile args ->
  (is_Some (fs w !! setsdir args) <-> is_Some (fs w' !! setsdir args)) ->
  same_shape (fs w) (fs w') ->
  ∃ evs r,
    main args w = (extend w evs, r) ∧
    main args w' = (extend w' evs, r) ∧
    Forall (fun x => opens (fs w) x.1 = true) (writes_of evs) ∧
    (fs w !! setsdir args = None -> writes_of evs = []).
Proof.
  intros Hf Hd Hshape.
  destruct (parse_yaml_file_reads (yamlfile args) w w' Hf)
    as (evs & r & Hnw & Hw & Hw').
  rewrite (main_bind_parse args w _ _ Hw), (main_bind_parse args w' _ _ Hw').
  destruct r as [[archs sets]|e].
  2:{ exists evs, (Raise e). by rewrite Hnw. }
  rewrite !fs_extend_no_writes by done.
  rewrite (bool_decide_ext _ _ Hd).
  destruct (bool_decide (is_Some (fs w' !! setsdir args))) eqn:Hex.
  - destruct (writer_only_write_set_files (fs w) (setsdir args) archs sets)
      as (evs' & r & Hrun & Hop).
    exists (evs ++ evs'), r.
    rewrite (Hrun (extend w evs)), (Hrun (extend w' evs)), !extend_extend.
    + split; [done|split; [done|]]. rewrite writes_of_app, Hnw.
      split; [done|]. intros Hnone.
      apply bool_decide_eq_true_1, Hd in Hex. rewrite Hnone in Hex.
      by destruct Hex.
    + by apply same_shape_extend.
    + apply same_shape_extend, same_shape_refl.
  - eexists (evs ++ [Stderr _]), _. rewrite <- !extend_extend.
    split; [reflexivity|]. split; [reflexivity|].
    rewrite writes_of_app, Hnw. by split.
Qed.

Lemma main_typed_run `{Builtins} args w archs sets :
  loads args w archs sets ->
  is_Some (fs w !! setsdir args) ->
  formats sets archs ->
  openable (fs w) (setsdir args) sets archs ->
  main args w =
  (extend w (sets ≫= fun s => archs ≫= set_file_events (setsdir args) s.1 s.2),
   Ok tt).
Proof.
  intros (content & y & sitems & Hf & Hy & Ha & Hs & Hview) Hdir Hok Hopen.
  rewrite (main_bind_parse args w w (Ok (VList (VStr <$> archs), VDict sitems))).
  - rewrite bool_decide_eq_true_2 by done.
    apply (writer_write_set_files (fs w)); [done..|apply same_shape_refl].
  - rewrite (parse_yaml_file_loaded _ _ content y) by done.
    by rewrite Ha, Hs.
Qed.

Lemma expected_atoms_none `{Builtins} pkgs arch :
  (∀ n e, (n, e) ∈ pkgs -> is_supported_value e arch = Ok false) ->
  expected_atoms pkgs arch = [].
Proof.
  induction pkgs as [|[n e] pkgs IH]; intros Hno; [reflexivity|].
  rewrite expected_atoms_cons. rewrite (Hno n e) by left.
  apply IH. intros n' e' Hin. apply (Hno n'). by right.
Qed.


Lemma elem_of_expected_writes `{Builtins} dir sets archs s pkgs a :
  (s, pkgs) ∈ sets -> a ∈ archs ->
  (os_path_join dir (s +:+ "-" +:+ a), expected_atoms pkgs (VStr a))
    ∈ expected_writes dir sets archs.
Proof.
  intros Hs Ha. unfold expected_writes.
  apply list_elem_of_bind. exists (s, pkgs). split; [|done].
  apply list_elem_of_bind. exists a. split; [|done]. left.
Qed.

Lemma elem_of_expected_writes_inv `{Builtins} dir sets archs p ls :
  (p, ls) ∈ expected_writes dir sets archs ->
  ∃ s pkgs a, (s, pkgs) ∈ sets ∧ a ∈ archs ∧
    p = os_path_join dir (s +:+ "-" +:+ a) ∧ ls = expected_atoms pkgs (VStr a).
Proof.
  unfold expected_writes. intros Hin.
  apply list_elem_of_bind in Hin as ([s pkgs] & Hin & Hs).
  apply list_elem_of_bind in Hin as (a & Hin & Ha).
  apply list_elem_of_singleton in Hin as [= -> ->]. by exists s, pkgs, a.
Qed.

Lemma elem_of_set_file_events `{Builtins} dir sets archs s pkgs a :
  (s, pkgs) ∈ sets -> a ∈ archs ->
  WriteFile (os_path_join dir (s +:+ "-" +:+ a)) (expected_atoms pkgs (VStr a))
    ∈ (sets ≫= fun s => archs ≫= set_file_events dir s.1 s.2).
Proof.
  intros Hs Ha.
  apply list_elem_of_bind. exists (s, pkgs). split; [|done].
  apply list_elem_of_bind. exists a. split; [|done].
  unfold set_file_events. apply elem_of_app. right. left.
Qed.

(** Where the writes of a run land when each of them opens. *)
Lemma located_opens f ws :
  (∀ p ls, (p, ls) ∈ ws -> opens f p = true) ->
  Forall2 (fun w l => resolve f w.1 = Some l.1 ∧ w.2 = l.2) ws (located f ws).
Proof.
  induction ws as [|[p ls] ws IH]; intros Hop; [constructor|].
  rewrite located_cons. pose proof (Hop p ls (list_elem_of_here _ _)) as Hp.
  rewrite Hp. unfold opens in Hp.
  destruct (resolve f p) as [loc|] eqn:Hres; [|done]. simpl.
  constructor; [done|]. apply IH. intros p' ls' Hin. apply (Hop p' ls'). by right.
Qed.

Lemma elem_of_located f ws p ls loc :
  (p, ls) ∈ ws -> opens f p = true -> resolve f p = Some loc ->
  (loc, ls) ∈ located f ws.
Proof.
  intros Hin Hop Hres. unfold located. apply list_elem_of_bind.
  exists (p, ls). split; [|done]. rewrite Hres, Hop. left.
Qed.

(** The content of a written file when no other write lands at its
    location. *)
Lemma elem_of_located_inv f ws loc ls :
  (loc, ls) ∈ located f ws -> ∃ p, (p, ls) ∈ ws ∧ resolve f p = Some loc.
Proof.
  unfold located. intros Hin.
  apply list_elem_of_bind in Hin as ([p ls'] & Hin & Hp).
  destruct (resolve f p) as [loc'|] eqn:Hres; [|by apply elem_of_nil in Hin].
  destruct (opens f p); [|by apply elem_of_nil in Hin].
  apply list_elem_of_singleton in Hin as [= -> ->]. by exists p.
Qed.

Lemma fs_after_writes ws f p ls :
  NoDup (located f ws).*1 -> (p, ls) ∈ ws -> opens f p = true ->
  apply_writes ws f !! p = Some (File (String.concat "" ls)).
Proof.
  intros Hnd Hin Hop. rewrite lookup_apply_writes.
  pose proof Hop as Hop'. unfold opens in Hop'.
  destruct (resolve f p) as [loc|] eqn:Hres; [|done].
  by rewrite (last_write_NoDup _ loc ls Hnd (elem_of_located f ws p ls loc Hin Hop Hres)).
Qed.

(** ** Facts about paths *)


Lemma append_nil_l (b : string) : "" +:+ b = b.
Proof. reflexivity. Qed.







Lemma eqb_app_empty (a b : string) :
  a ≠ "" -> String.eqb (a +:+ b) "" = false.
Proof. destruct a; [done|]. done. Qed.










(** * The properties of the specification *)

(** ** The support resolver *)

(** C1: for an architecture string, [is_supported] returns true for an absent
    entry; for an entry whose [exclude_on] (default: the empty list) and
    [include_on] (default: the list holding the architecture itself) are
    lists, it returns true exactly when the architecture is not in the first
    and is in the second; an entry with neither attribute is supported on
    every architecture. *)
Theorem is_supported_iff (w : world) (arch : string) :
  (is_supported VNone (VStr arch) w).2 = Ok true ∧
  (∀ d ex inc,
     from_option id (VList []) (entry_field (VDict d) "exclude_on") = VList ex ->
     from_option id (VList [VStr arch]) (entry_field (VDict d) "include_on") = VList inc ->
     ∃ b : bool,
       (is_supported (VDict d) (VStr arch) w).2 = Ok b ∧
       (b = true <-> (VStr arch ∉ ex) ∧ (VStr arch ∈ inc))) ∧
  (∀ d,
     entry_field (VDict d) "exclude_on" = None ->
     entry_field (VDict d) "include_on" = None ->
     (is_supported (VDict d) (VStr arch) w).2 = Ok true).
Proof.
  split; [reflexivity|]. split.
  - intros d ex inc Hex Hinc. eexists. split.
    + rewrite is_supported_run. cbn [snd]. by apply is_supported_value_lists.
    + rewrite andb_true_iff, negb_true_iff, <- not_true_iff_false.
      by rewrite !existsb_py_eq_str.
  - intros d Hex Hinc. rewrite is_supported_run. cbn [snd].
    rewrite (is_supported_value_lists d arch [] [VStr arch]).
    + simpl. by rewrite String.eqb_refl.
    + simpl in Hex. by rewrite Hex.
    + simpl in Hinc. by rewrite Hinc.
Qed.

Lemma is_supported_iff_witness :
  (∃ b : bool,
     (is_supported
        (VDict [(VStr "exclude_on", VList [VStr "aarch64"]);
                (VStr "include_on", VList [VStr "x86_64"; VStr "aarch64"])])
        (VStr "x86_64") example_world).2 = Ok b ∧
     (b = true <->
      (VStr "x86_64" ∉ [VStr "aarch64"]) ∧
      (VStr "x86_64" ∈ [VStr "x86_64"; VStr "aarch64"]))) ∧
  (is_supported (VDict [(VStr "version", VStr "1.2.3")]) (VStr "riscv64")
     example_world).2 = Ok true.
Proof.
  split.
  - apply (proj1 (proj2 (is_supported_iff example_world "x86_64")));
      reflexivity.
  - apply (proj2 (proj2 (is_supported_iff example_world "riscv64")));
      reflexivity.
Defined.

(** C2: exclusion wins.  For an entry that is present, an architecture listed
    in [exclude_on] is not supported, whatever [include_on] holds. *)
Theorem exclusion_wins (w : world) (d : list (pyval * pyval)) (arch : string)
    (ex : list pyval) :
  entry_field (VDict d) "exclude_on" = Some (VList ex) ->
  VStr arch ∈ ex ->
  (is_supported (VDict d) (VStr arch) w).2 = Ok false.
Proof.
  intros Hex Hin. rewrite is_supported_run. cbn [snd]. simpl in Hex.
  unfold is_supported_value, py_get. rewrite Hex.
  cbn [from_option id mbind result_bind rbind py_in].
  apply existsb_py_eq_str in Hin. by rewrite Hin.
Qed.

Lemma exclusion_wins_witness :
  (is_supported
     (VDict [(VStr "exclude_on", VList [VStr "x86_64"]);
             (VStr "include_on", VList [VStr "x86_64"])])
     (VStr "x86_64") example_world).2 = Ok false.
Proof.
  apply (exclusion_wins example_world _ "x86_64" [VStr "x86_64"]).
  - reflexivity.
  - apply list_elem_of_In. simpl. by left.
Defined.

(** C5, as amended: the value [is_supported] returns depends on its two
    arguments only, and the file system is left as it was; its one effect is
    the line it prints on standard output, holding the entry and the
    architecture. *)
Theorem is_supported_effect (package arch : pyval) (w w' : world) :
  (is_supported package arch w).2 = (is_supported package arch w').2 ∧
  fs (is_supported package arch w).1 = fs w ∧
  trace (is_supported package arch w).1 = trace w ++ [Stdout [package; arch]].
Proof. done. Qed.

(** C5 as stated fails: a call leaves a line on standard output. *)
Lemma is_supported_prints :
  (is_supported VNone (VStr "x86_64") example_world).1 ≠ example_world.
Proof. discriminate. Qed.

(** ** The atom formatter *)

(** C3, as amended: for an entry that is absent or a mapping, whose overlay
    (when present) is a string, [make_atom] returns the atom text of the
    specification followed by a line feed: the name, pinned as
    [=name-version] when there is a version, then qualified as [::overlay]
    when there is an overlay.  The result is a single line when the name,
    the text of the version and the overlay hold no line feed.  An absent or
    empty entry gives the bare name. *)
Theorem make_atom_format `{Builtins} (name : string) (entry : pyval)
    (overlay : option string) :
  entry = VNone ∨ (∃ d, entry = VDict d) ->
  entry_field entry "overlay" = VStr <$> overlay ->
  make_atom (VStr name) entry =
    Ok (atom_text name (py_str <$> entry_field entry "version") overlay +:+ LF) ∧
  (newlines name = 0 ->
   (∀ v, entry_field entry "version" = Some v -> newlines (py_str v) = 0) ->
   (∀ o, overlay = Some o -> newlines o = 0) ->
   newlines (atom_text name (py_str <$> entry_field entry "version") overlay
             +:+ LF) = 1) ∧
  make_atom (VStr name) VNone = Ok (name +:+ LF) ∧
  make_atom (VStr name) (VDict []) = Ok (name +:+ LF).
Proof.
  intros Hentry Hov. split; [|split; [|split; reflexivity]].
  - destruct Hentry as [->|[d ->]].
    + destruct overlay; [discriminate|]. reflexivity.
    + by apply make_atom_dict.
  - intros Hn Hv Ho. apply newlines_atom_text; [done| |done].
    intros v Hsome. destruct (entry_field entry "version") as [v'|]; [|done].
    injection Hsome as <-. by apply Hv.
Qed.

Lemma make_atom_format_witness :
  @make_atom example_builtins (VStr "foo")
    (VDict [(VStr "version", VStr "1.2.3"); (VStr "overlay", VStr "science")])
  = Ok ("=foo-1.2.3::science" +:+ LF) ∧
  newlines ("=foo-1.2.3::science" +:+ LF) = 1 ∧
  @make_atom example_builtins (VStr "foo") (VDict []) = Ok ("foo" +:+ LF).
Proof.
  destruct (@make_atom_format example_builtins "foo"
              (VDict [(VStr "version", VStr "1.2.3");
                      (VStr "overlay", VStr "science")])
              (Some "science")) as (Hatom & Hline & _ & Hempty).
  - right. by eexists.
  - reflexivity.
  - split; [exact Hatom|]. split; [|exact Hempty].
    apply Hline; [reflexivity| |].
    + intros v [= <-]. reflexivity.
    + intros o [= <-]. reflexivity.
Defined.

(** C3 as stated fails: nothing is escaped, so a name that holds a line feed
    gives an atom of two lines. *)
Lemma make_atom_two_lines :
  @make_atom example_builtins (VStr ("a" +:+ LF +:+ "b")) VNone
  = Ok ("a" +:+ LF +:+ "b" +:+ LF) ∧
  newlines ("a" +:+ LF +:+ "b" +:+ LF) = 2.
Proof. split; reflexivity. Qed.

(** C10: the version is passed through [str], so a version of any type pins
    the atom as [=name-str(version)]; the overlay is not, so an overlay that
    is not a string makes the concatenation raise [TypeError]. *)
Theorem make_atom_coerces_version `{Builtins} (name : string)
    (d : list (pyval * pyval)) (version : pyval) :
  entry_field (VDict d) "version" = Some version ->
  (∀ overlay : option string,
     entry_field (VDict d) "overlay" = VStr <$> overlay ->
     make_atom (VStr name) (VDict d) =
     Ok (atom_text name (Some (py_str version)) overlay +:+ LF)) ∧
  ((∀ s, version ≠ VStr s) -> py_str version = builtin_str version) ∧
  (∀ o : pyval,
     entry_field (VDict d) "overlay" = Some o ->
     (∀ s, o ≠ VStr s) ->
     make_atom (VStr name) (VDict d) = Raise TypeError).
Proof.
  simpl. intros Hv. split; [|split].
  - intros overlay Hov. rewrite (make_atom_dict name d overlay Hov).
    by rewrite Hv.
  - intros Hns. destruct version; try reflexivity. by destruct (Hns s).
  - intros o Ho Hns. unfold make_atom. rewrite falsy_entry_is_empty.
    rewrite !py_in_str_dict. unfold py_getitem. rewrite Hv, Ho.
    cbn [mbind mret result_bind result_ret rbind str_add].
    destruct o; try reflexivity. by destruct (Hns s).
Qed.

Lemma make_atom_coerces_version_witness :
  @make_atom example_builtins (VStr "foo")
    (VDict [(VStr "version", VFloat float_1_2)]) = Ok ("=foo-1.2" +:+ LF) ∧
  @make_atom example_builtins (VStr "foo")
    (VDict [(VStr "version", VFloat float_1_2); (VStr "overlay", VInt 3)])
  = Raise TypeError.
Proof.
  split.
  - apply (proj1 (@make_atom_coerces_version example_builtins "foo"
                    [(VStr "version", VFloat float_1_2)] (VFloat float_1_2)
                    eq_refl) None).
    reflexivity.
  - apply (proj2 (proj2 (@make_atom_coerces_version example_builtins "foo"
                    [(VStr "version", VFloat float_1_2);
                     (VStr "overlay", VInt 3)] (VFloat float_1_2)
                    eq_refl)) (VInt 3)).
    + reflexivity.
    + discriminate.
Defined.

(** ** The input loader *)

(** C4: on a file that is not well-formed YAML the loader writes one error
    message holding the parser's diagnostic and exits with status 1; on a
    well-formed document that lacks [eessi_archs], or has it and lacks
    [eessi_sets], the subscription raises a [KeyError] that the [try]
    statement does not catch, and nothing is written to standard error. *)
Theorem parse_yaml_file_errors `{Builtins} (f : string) (w : world)
    (content : string) :
  fs w !! f = Some (File content) ->
  (∀ diag, safe_load content = YAMLError diag ->
     parse_yaml_file f w =
     (log (Stderr ("ERROR: YAML file could not be parsed." +:+ LF +:+ diag +:+ LF)) w,
      Raise (SystemExit 1))) ∧
  (∀ d, safe_load content = Loaded (VDict d) ->
     dict_lookup (VStr "eessi_archs") d = None ->
     parse_yaml_file f w = (w, Raise (KeyError (VStr "eessi_archs")))) ∧
  (∀ d, safe_load content = Loaded (VDict d) ->
     is_Some (dict_lookup (VStr "eessi_archs") d) ->
     dict_lookup (VStr "eessi_sets") d = None ->
     parse_yaml_file f w = (w, Raise (KeyError (VStr "eessi_sets")))).
Proof.
  intros Hf. split; [|split].
  - intros diag Hy. by rewrite (parse_yaml_file_malformed f w content diag).
  - intros d Hy Ha. rewrite (parse_yaml_file_loaded f w content _ Hf Hy).
    unfold py_getitem. by rewrite Ha.
  - intros d Hy [archs Ha] Hs.
    rewrite (parse_yaml_file_loaded f w content _ Hf Hy).
    unfold py_getitem. by rewrite Ha, Hs.
Qed.

Lemma parse_yaml_file_errors_witness :
  @parse_yaml_file example_builtins "sets.yml"
    (World (<["sets.yml" := File "{eessi_archs: [x86_64]}"]> ∅) [])
  = (World (<["sets.yml" := File "{eessi_archs: [x86_64]}"]> ∅) [],
     Raise (KeyError (VStr "eessi_sets"))) ∧
  @parse_yaml_file example_builtins "sets.yml"
    (World (<["sets.yml" := File "eessi_archs: x: y"]> ∅) [])
  = (World (<["sets.yml" := File "eessi_archs: x: y"]> ∅)
       [Stderr ("ERROR: YAML file could not be parsed." +:+ LF +:+
                "mapping values are not allowed here" +:+ LF)],
     Raise (SystemExit 1)).
Proof.
  assert (fs (World (<["sets.yml" := File "eessi_archs: x: y"]> ∅) [])
            !! "sets.yml" = Some (File "eessi_archs: x: y")) as Hbad
    by reflexivity.
  assert (fs (World (<["sets.yml" := File "{eessi_archs: [x86_64]}"]> ∅) [])
            !! "sets.yml" = Some (File "{eessi_archs: [x86_64]}")) as Hgood
    by reflexivity.
  split; [|exact (proj1 (@parse_yaml_file_errors example_builtins "sets.yml"
                           _ "eessi_archs: x: y" Hbad)
                    "mapping values are not allowed here" eq_refl)].
  apply (proj2 (proj2 (@parse_yaml_file_errors example_builtins "sets.yml"
                         _ "{eessi_archs: [x86_64]}" Hgood))
           [(VStr "eessi_archs", VList [VStr "x86_64"])]).
  - reflexivity.
  - by eexists.
  - reflexivity.
Defined.

(** ** The orchestrator *)


Lemma example_loads :
  @loads example_builtins example_args example_world example_archs example_sets.
Proof.
  exists example_yaml, example_document. eexists.
  split; [reflexivity|]. split; [reflexivity|]. split; [reflexivity|].
  split; [reflexivity|]. repeat constructor.
Defined.

Lemma example_formats : @formats example_builtins example_sets example_archs.
Proof.
  intros s pkgs n e a Hs Hp Ha.
  apply list_elem_of_singleton in Hs as [= -> ->].
  apply list_elem_of_singleton in Hp as [= -> ->].
  exists true. split; [reflexivity|]. intros _. by eexists.
Defined.

Lemma example_openable :
  openable (fs example_world) (setsdir example_args) example_sets example_archs.
Proof.
  intros s pkgs a Hs Ha.
  apply list_elem_of_singleton in Hs as [= -> ->].
  apply elem_of_cons in Ha as [->|Ha]; [reflexivity|].
  apply list_elem_of_singleton in Ha as ->. reflexivity.
Defined.



(** C7: when the output directory does not exist, [main] writes no file and
    leaves the file system as it was; once the loader has returned, the run
    ends with the error message for the missing directory and exit status
    1. *)
Theorem main_missing_output_dir `{Builtins} (args : Namespace) (w : world) :
  fs w !! setsdir args = None ->
  fs (main args w).1 = fs w ∧
  (∃ evs, trace (main args w).1 = trace w ++ evs ∧ writes_of evs = []) ∧
  (∀ w0 archs sets,
     parse_yaml_file (yamlfile args) w = (w0, Ok (archs, sets)) ->
     main args w =
     (log (Stderr ("ERROR: output directory " +:+ setsdir args
                   +:+ " does not exist." +:+ LF)) w0,
      Raise (SystemExit 1))).
Proof.
  intros Hdir.
  destruct (main_run args w w eq_refl (reflexivity _) (same_shape_refl _))
    as (evs & r & Hrun & _ & _ & Hnw).
  specialize (Hnw Hdir). rewrite Hrun. cbn [fst].
  split; [by apply fs_extend_no_writes|]. split; [by exists evs|].
  intros w0 archs sets Hparse. rewrite <- Hrun.
  rewrite (main_bind_parse args w w0 _ Hparse).
  destruct (parse_yaml_file_reads (yamlfile args) w w eq_refl)
    as (evs0 & r0 & Hnw0 & Hw0 & _).
  rewrite Hparse in Hw0. injection Hw0 as -> _.
  rewrite fs_extend_no_writes, Hdir by done.
  rewrite bool_decide_eq_false_2 by (by intros [? ?]).
  rewrite !append_assoc. reflexivity.
Qed.

Lemma main_missing_output_dir_witness :
  @main example_builtins example_args
    (World (<["sets.yml" := File example_yaml]> ∅) [])
  = (World (<["sets.yml" := File example_yaml]> ∅)
       [Stderr ("ERROR: output directory out does not exist." +:+ LF)],
     Raise (SystemExit 1)).
Proof.
  assert (fs (World (<["sets.yml" := File example_yaml]> ∅) [])
            !! setsdir example_args = None) as Hdir by reflexivity.
  exact (proj2 (proj2 (@main_missing_output_dir example_builtins example_args
                         _ Hdir))
           (World (<["sets.yml" := File example_yaml]> ∅) [])
           (VList [VStr "x86_64"; VStr "aarch64"])
           (VDict [(VStr "base",
                    VDict [(VStr "packages", VDict [(VStr "bar", VNone)])])])
           eq_refl).
Defined.

(** C8: a second run, started where the first one ended and reading the same
    input file, ends the same way and leaves every file as the first run left
    it.  The files a run writes do not depend on the files that were there
    before: two runs on the same input, in worlds with the same directories
    and permissions that agree on whether the output directory exists, end
    the same way, perform the same writes and leave the same contents at
    every path they write. *)
Theorem main_idempotent `{Builtins} (args : Namespace) (w : world) :
  (fs (main args w).1 !! yamlfile args = fs w !! yamlfile args ->
   (main args (main args w).1).2 = (main args w).2 ∧
   fs (main args (main args w).1).1 = fs (main args w).1) ∧
  (∀ w',
     fs w' !! yamlfile args = fs w !! yamlfile args ->
     (is_Some (fs w' !! setsdir args) <-> is_Some (fs w !! setsdir args)) ->
     same_shape (fs w) (fs w') ->
     ∃ evs evs',
       trace (main args w).1 = trace w ++ evs ∧
       trace (main args w').1 = trace w' ++ evs' ∧
       (main args w).2 = (main args w').2 ∧
       writes_of evs = writes_of evs' ∧
       (∀ p, p ∈ (writes_of evs).*1 ->
          is_Some (fs (main args w).1 !! p) ∧
          fs (main args w).1 !! p = fs (main args w').1 !! p)).
Proof.
  split.
  - intros Hsame.
    destruct (main_run args w w eq_refl (reflexivity _) (same_shape_refl _))
      as (evs & r & Hrun & _ & _ & Hnw).
    rewrite Hrun in *. cbn [fst snd] in *.
    assert (is_Some (fs w !! setsdir args) <->
            is_Some (fs (extend w evs) !! setsdir args)) as Hdir.
    { destruct (fs w !! setsdir args) as [n|] eqn:Hd.
      - split; [intros _|by eauto]. apply apply_writes_is_Some. by rewrite Hd.
      - by rewrite fs_extend_no_writes, Hd by auto. }
    destruct (main_run args w (extend w evs) (eq_sym Hsame) Hdir
                (same_shape_extend _ w evs (same_shape_refl _)))
      as (evs2 & r2 & Hrun2 & Hrun2' & _).
    rewrite Hrun in Hrun2. injection Hrun2 as _ Htrace <-.
    apply app_inv_head in Htrace as <-.
    rewrite Hrun2'. cbn [fst snd]. split; [done|].
    unfold extend. cbn [fs]. apply apply_writes_idemp.
  - intros w' Hf Hd Hsh.
    destruct (main_run args w w' (eq_sym Hf) (symmetry Hd) Hsh)
      as (evs & r & Hrun & Hrun' & Hop & _).
    exists evs, evs. rewrite Hrun, Hrun'. cbn [fst snd].
    split; [done|]. split; [done|]. split; [done|]. split; [done|].
    intros p Hp. unfold extend. cbn [fs]. rewrite !lookup_apply_writes.
    rewrite <- (resolve_same_shape _ _ p Hsh), <- (located_same_shape _ _ _ Hsh).
    apply list_elem_of_fmap in Hp as ([p' ls] & -> & Hin). cbn [fst].
    rewrite Forall_forall in Hop. pose proof (Hop _ Hin) as Hopen.
    cbn [fst] in Hopen.
    destruct (resolve (fs w) p') as [loc|] eqn:Hres.
    2:{ unfold opens in Hopen. by rewrite Hres in Hopen. }
    destruct (last_write_is_Some (located (fs w) (writes_of evs)) loc)
      as [ls' ->]; [|by eauto].
    apply list_elem_of_fmap. exists (loc, ls). split; [done|].
    by eapply elem_of_located.
Qed.

Lemma stale_world_shape : same_shape (fs example_world) (fs stale_world).
Proof.
  assert (fs stale_world
          = put "out/base-x86_64" "stale" (fs example_world)) as ->.
  { reflexivity. }
  apply same_shape_put.
Defined.

Lemma main_idempotent_witness :
  ((@main example_builtins example_args
      (@main example_builtins example_args example_world).1).2 = Ok tt ∧
   fs (@main example_builtins example_args
         (@main example_builtins example_args example_world).1).1
   = fs (@main example_builtins example_args example_world).1) ∧
  (∃ evs evs',
     trace (@main example_builtins example_args example_world).1
       = trace example_world ++ evs ∧
     trace (@main example_builtins example_args stale_world).1
       = trace stale_world ++ evs' ∧
     (@main example_builtins example_args example_world).2
       = (@main example_builtins example_args stale_world).2 ∧
     writes_of evs = writes_of evs' ∧
     (∀ p, p ∈ (writes_of evs).*1 ->
        is_Some (fs (@main example_builtins example_args example_world).1 !! p) ∧
        fs (@main example_builtins example_args example_world).1 !! p
        = fs (@main example_builtins example_args stale_world).1 !! p)).
Proof.
  split.
  - apply (proj1 (@main_idempotent example_builtins example_args example_world)).
    reflexivity.
  - apply (proj2 (@main_idempotent example_builtins example_args example_world)
             stale_world).
    + reflexivity.
    + split; intros _; by eexists.
    + exact stale_world_shape.
Defined.

(** C9: under the conditions of C6, a pair of a set and an architecture on
    which no package of the set is supported still gets its file: the run
    writes it with no lines, the path exists afterwards and, when no other
    pair writes the same file, it is the empty file. *)
Theorem main_writes_empty_set_file `{Builtins} (args : Namespace) (w : world)
    (archs : list string) (sets : list (string * list (pyval * pyval)))
    (s : string) (pkgs : list (pyval * pyval)) (a : string) :
  loads args w archs sets ->
  is_Some (fs w !! setsdir args) ->
  formats sets archs ->
  openable (fs w) (setsdir args) sets archs ->
  (s, pkgs) ∈ sets ->
  a ∈ archs ->
  (∀ n e, (n, e) ∈ pkgs -> is_supported_value e (VStr a) = Ok false) ->
  ∃ evs,
    main args w = (extend w evs, Ok tt) ∧
    WriteFile (os_path_join (setsdir args) (s +:+ "-" +:+ a)) [] ∈ evs ∧
    (∃ data,
       fs (main args w).1 !! os_path_join (setsdir args) (s +:+ "-" +:+ a)
       = Some (File data)) ∧
    (NoDup (located (fs w) (writes_of evs)).*1 ->
     fs (main args w).1 !! os_path_join (setsdir args) (s +:+ "-" +:+ a)
     = Some (File "")).
Proof.
  intros Hload Hdir Hok Hop Hs Ha Hnone. eexists.
  rewrite (main_typed_run args w archs sets Hload Hdir Hok Hop).
  split; [reflexivity|].
  pose proof (elem_of_set_file_events (setsdir args) sets archs s pkgs a Hs Ha)
    as Hev.
  pose proof (elem_of_expected_writes (setsdir args) sets archs s pkgs a Hs Ha)
    as Hwr.
  rewrite (expected_atoms_none pkgs (VStr a) Hnone) in Hev, Hwr.
  pose proof (Hop s pkgs a Hs Ha) as Hopen.
  split; [exact Hev|]. cbn [fst extend fs]. rewrite writes_of_run. split.
  - rewrite lookup_apply_writes.
    destruct (resolve (fs w) (os_path_join (setsdir args) (s +:+ "-" +:+ a)))
      as [loc|] eqn:Hres.
    2:{ unfold opens in Hopen. by rewrite Hres in Hopen. }
    destruct (last_write_is_Some
                (located (fs w) (expected_writes (setsdir args) sets archs)) loc)
      as [ls ->]; [|by eexists].
    apply list_elem_of_fmap. exists (loc, []). split; [done|].
    by eapply elem_of_located.
  - intros Hnd. by rewrite (fs_after_writes _ _ _ [] Hnd Hwr Hopen).
Qed.

Lemma excluded_loads :
  @loads example_builtins example_args excluded_world ["aarch64"] excluded_sets.
Proof.
  exists excluded_yaml, excluded_document. eexists.
  split; [reflexivity|]. split; [reflexivity|]. split; [reflexivity|].
  split; [reflexivity|]. repeat constructor.
Defined.

Lemma excluded_formats : @formats example_builtins excluded_sets ["aarch64"].
Proof.
  intros s pkgs n e a Hs Hp Ha.
  apply list_elem_of_singleton in Hs as [= -> ->].
  apply list_elem_of_singleton in Hp as [= -> ->].
  apply list_elem_of_singleton in Ha as ->.
  exists false. split; [reflexivity|]. discriminate.
Defined.

Lemma excluded_openable :
  openable (fs excluded_world) (setsdir example_args) excluded_sets ["aarch64"].
Proof.
  intros s pkgs a Hs Ha.
  apply list_elem_of_singleton in Hs as [= -> ->].
  apply list_elem_of_singleton in Ha as ->. reflexivity.
Defined.

Lemma main_writes_empty_set_file_witness :
  ∃ evs,
    @main example_builtins example_args excluded_world =
      (extend excluded_world evs, Ok tt) ∧
    WriteFile "out/base-aarch64" [] ∈ evs ∧
    (∃ data,
       fs (@main example_builtins example_args excluded_world).1
         !! "out/base-aarch64" = Some (File data)) ∧
    (NoDup (located (fs excluded_world) (writes_of evs)).*1 ->
     fs (@main example_builtins example_args excluded_world).1
       !! "out/base-aarch64" = Some (File "")).
Proof.
  apply (@main_writes_empty_set_file example_builtins example_args
           excluded_world ["aarch64"] excluded_sets "base"
           [(VStr "bar", VDict [(VStr "exclude_on", VList [VStr "aarch64"])])]
           "aarch64" excluded_loads (ex_intro _ Dir eq_refl) excluded_formats
           excluded_openable).
  - left.
  - left.
  - intros n e Hin. apply list_elem_of_singleton in Hin as [= -> ->].
    reflexivity.
Defined.

(** * Further properties of the script *)

(** ** Results that are not exits *)

Lemma no_exit_Ok {A} (a : A) : no_exit (Ok a).
Proof. intros code. discriminate. Qed.

Lemma no_exit_bind {A B} (r : result A) (f : A -> result B) :
  no_exit r -> (∀ a, no_exit (f a)) -> no_exit (r ≫= f).
Proof.
  intros Hr Hf. destruct r as [a|e]; [apply Hf|].
  intros code Heq. cbn in Heq. injection Heq as ->. by apply (Hr code).
Qed.

Lemma no_exit_py_in x c : no_exit (py_in x c).
Proof. intros code. destruct c, x; discriminate. Qed.

Lemma no_exit_py_get o k v : no_exit (py_get o k v).
Proof. intros code. destruct o; discriminate. Qed.

Lemma no_exit_py_getitem o k : no_exit (py_getitem o k).
Proof.
  intros code. destruct o; try discriminate. simpl.
  destruct (dict_lookup _ _); discriminate.
Qed.

Lemma no_exit_py_items o : no_exit (py_items o).
Proof. intros code. destruct o; discriminate. Qed.

Lemma no_exit_py_iter o : no_exit (py_iter o).
Proof. intros code. destruct o; discriminate. Qed.

Lemma no_exit_str_add s o : no_exit (str_add s o).
Proof. intros code. destruct o; discriminate. Qed.

Lemma no_exit_add_str o s : no_exit (add_str o s).
Proof. intros code. destruct o; discriminate. Qed.

Lemma no_exit_is_supported_value package arch :
  no_exit (is_supported_value package arch).
Proof.
  assert (no_exit
            (exclude_on ← py_get package "exclude_on" (VList []);
             excluded ← py_in arch exclude_on;
             if negb excluded then
               include_on ← py_get package "include_on" (VList [arch]);
               py_in arch include_on
             else Ok false)) as Hgen.
  { apply no_exit_bind; [apply no_exit_py_get|]. intros ex.
    apply no_exit_bind; [apply no_exit_py_in|]. intros [|]; simpl.
    - apply no_exit_Ok.
    - apply no_exit_bind; [apply no_exit_py_get|]. intros inc.
      apply no_exit_py_in. }
  destruct package; [apply no_exit_Ok|exact Hgen..].
Qed.

Lemma no_exit_make_atom `{Builtins} name entry : no_exit (make_atom name entry).
Proof.
  unfold make_atom.
  apply no_exit_bind; [apply no_exit_py_in|]. intros hv.
  apply no_exit_bind.
  { destruct hv; [|apply no_exit_Ok].
    apply no_exit_bind; [apply no_exit_str_add|]. intros pinned.
    apply no_exit_bind; [apply no_exit_py_getitem|]. intros v.
    apply no_exit_Ok. }
  intros atom.
  apply no_exit_bind; [apply no_exit_py_in|]. intros ho.
  apply no_exit_bind.
  { destruct ho; [|apply no_exit_Ok].
    apply no_exit_bind; [apply no_exit_py_getitem|]. intros o.
    apply no_exit_bind; [apply no_exit_str_add|]. intros suffix.
    apply no_exit_bind; [apply no_exit_add_str|]. intros q.
    apply no_exit_Ok. }
  intros atom'. apply no_exit_add_str.
Qed.

(** ** Runs that keep an invariant on their events *)

Lemma run_sat_ret {A} f0 Q (a : A) : run_sat f0 Q (mret a).
Proof.
  exists [], (Ok a). split; [apply writer_ret|]. split; [constructor|].
  apply no_exit_Ok.
Qed.

Lemma run_sat_lift {A} f0 Q (r : result A) : no_exit r -> run_sat f0 Q (lift r).
Proof. intros Hr. exists [], r. split; [apply writer_lift|]. by split. Qed.

Lemma run_sat_print f0 Q args : Q (Stdout args) -> run_sat f0 Q (print args).
Proof.
  intros HQ. exists [Stdout args], (Ok tt). split; [apply writer_print|].
  split; [by repeat constructor|apply no_exit_Ok].
Qed.

Lemma run_sat_write_lines f0 Q p ls :
  Q (WriteFile p ls) -> run_sat f0 Q (write_lines p ls).
Proof.
  intros HQ. destruct (opens f0 p) eqn:Hop.
  - exists [WriteFile p ls], (Ok tt).
    split; [by apply writer_write_lines|].
    split; [by repeat constructor|apply no_exit_Ok].
  - eexists [], _. split; [by apply writer_write_lines_raise|].
    split; [constructor|]. intros code. by destruct (has_char "000" p).
Qed.

Lemma run_sat_bind {A B} f0 Q (c : M A) (f : A -> M B) :
  run_sat f0 Q c -> (∀ a, run_sat f0 Q (f a)) -> run_sat f0 Q (c ≫= f).
Proof.
  intros (evs & [a|e] & Hc & HQ & Hne) Hf.
  - destruct (Hf a) as (evs' & r & Hfa & HQ' & Hne').
    exists (evs ++ evs'), r. split; [by eapply writer_bind_ok|].
    split; [apply Forall_app; by split|done].
  - exists evs, (Raise e). split; [by apply writer_bind_raise|].
    split; [done|]. intros code Heq. injection Heq as ->. by apply (Hne code).
Qed.

Lemma run_sat_for_each {A} f0 Q (l : list A) (body : A -> M unit) :
  (∀ x, run_sat f0 Q (body x)) -> run_sat f0 Q (for_each l body).
Proof.
  intros Hbody. induction l as [|x l IH]; simpl.
  - apply run_sat_ret.
  - apply run_sat_bind; [apply Hbody | intros _; apply IH].
Qed.

Lemma run_sat_supported_packages `{Builtins} f0 Q pkgs arch :
  (∀ args, Q (Stdout args)) -> run_sat f0 Q (supported_packages pkgs arch).
Proof.
  intros HQ. induction pkgs as [|[n e] pkgs IH]; simpl.
  - apply run_sat_ret.
  - apply run_sat_bind.
    { apply run_sat_bind; [by apply run_sat_print|]. intros _.
      apply run_sat_lift, no_exit_is_supported_value. }
    intros [|]; [|apply IH].
    apply run_sat_bind; [apply run_sat_lift, no_exit_make_atom|]. intros atom.
    apply run_sat_bind; [apply IH|]. intros atoms. apply run_sat_ret.
Qed.

(** The loops print and write set files of the directory, nothing else, and
    do not exit. *)
Lemma run_sat_write_set_files `{Builtins} f0 dir archs sets :
  run_sat f0 (loop_event dir) (write_set_files dir archs sets).
Proof.
  unfold write_set_files.
  apply run_sat_bind; [apply run_sat_lift, no_exit_py_items|]. intros items.
  apply run_sat_for_each. intros [set_name set].
  apply run_sat_bind; [apply run_sat_lift, no_exit_py_iter|]. intros elems.
  apply run_sat_for_each. intros arch. unfold write_set_file.
  apply run_sat_bind.
  { apply run_sat_lift, no_exit_bind; [apply no_exit_py_getitem|].
    intros p. apply no_exit_py_items. }
  intros pkgs.
  apply run_sat_bind; [by apply run_sat_supported_packages|]. intros atoms.
  apply run_sat_bind; [|intros _; by apply run_sat_print].
  apply run_sat_write_lines. by eexists _, _.
Qed.

Lemma elem_of_writes_of evs p ls :
  (p, ls) ∈ writes_of evs <-> WriteFile p ls ∈ evs.
Proof.
  unfold writes_of. rewrite list_elem_of_bind. split.
  - intros (e & Hin & He). destruct e; try by apply elem_of_nil in Hin.
    by apply list_elem_of_singleton in Hin as [= -> ->].
  - intros Hin. exists (WriteFile p ls). split; [left|done].
Qed.

(** The events of any run of [main]: either the one line of [error] followed
    by the exit with status 1, or prints and writes of set files followed by
    anything but an exit. *)
Lemma main_events `{Builtins} args w :
  ∃ evs r,
    main args w = (extend w evs, r) ∧
    ((∃ text, evs = [Stderr text] ∧ r = Raise (SystemExit 1)) ∨
     (Forall (loop_event (setsdir args)) evs ∧ no_exit r)).
Proof.
  destruct (fs w !! yamlfile args) as [[content|]|] eqn:Hf.
  - destruct (safe_load content) as [y|diag|] eqn:Hy.
    + rewrite (main_bind_parse args w w _
                 (parse_yaml_file_loaded _ _ content y Hf Hy)).
      destruct (archs ← py_getitem y "eessi_archs";
                sets ← py_getitem y "eessi_sets"; mret (archs, sets))
        as [[archs sets]|e] eqn:Hkeys.
      * destruct (bool_decide (is_Some (fs w !! setsdir args))).
        -- destruct (run_sat_write_set_files (fs w) (setsdir args) archs sets)
             as (evs & r & Hrun & HQ & Hne).
           exists evs, r. split; [apply Hrun, same_shape_refl|]. by right.
        -- eexists [Stderr _], _. split; [reflexivity|]. left. by eexists.
      * exists [], (Raise e). rewrite extend_nil. split; [done|]. right.
        split; [constructor|]. intros code [= ->].
        assert (no_exit (archs ← py_getitem y "eessi_archs";
                         sets ← py_getitem y "eessi_sets";
                         mret (archs, sets))) as Hne.
        { apply no_exit_bind; [apply no_exit_py_getitem|]. intros a.
          apply no_exit_bind; [apply no_exit_py_getitem|]. intros s.
          apply no_exit_Ok. }
        by apply (Hne code).
    + rewrite (main_bind_parse args w _ _
                 (parse_yaml_file_malformed _ _ content diag Hf Hy)).
      eexists [Stderr _], _. split; [reflexivity|]. left. by eexists.
    + assert (parse_yaml_file (yamlfile args) w
              = (w, Raise UnicodeDecodeError)) as Hparse.
      { by rewrite parse_yaml_file_step, Hf, Hy. }
      rewrite (main_bind_parse args w _ _ Hparse).
      exists [], (Raise UnicodeDecodeError). rewrite extend_nil.
      split; [done|]. right. split; [constructor|]. intros code. discriminate.
  - rewrite (main_bind_parse args w _ _ (parse_yaml_file_directory _ _ Hf)).
    exists [], (Raise OSError). rewrite extend_nil. split; [done|]. right.
    split; [constructor|]. intros code. discriminate.
  - rewrite (main_bind_parse args w _ _ (parse_yaml_file_not_found _ _ Hf)).
    eexists [Stderr _], _. split; [reflexivity|]. left. by eexists.
Qed.

(** X8: an exit of [main] through [error] is clean.  For the arguments
    [parse_args] returned: when the rest of [main] ends in an exit, the
    status is 1, no file has been written and the one thing the run did was
    to write the error line; and a run that writes to standard error writes
    that one line and exits with status 1. *)
Theorem main_exit_is_clean `{Builtins} (args : Namespace) (w : world) :
  (∀ code, (main args w).2 = Raise (SystemExit code) ->
     code = 1%Z ∧
     fs (main args w).1 = fs w ∧
     ∃ text, trace (main args w).1 = trace w ++ [Stderr text]) ∧
  (∀ evs text,
     trace (main args w).1 = trace w ++ evs ->
     Stderr text ∈ evs ->
     (main args w).2 = Raise (SystemExit 1) ∧ evs = [Stderr text]).
Proof.
  destruct (main_events args w) as (evs & r & Hrun & Hcases). rewrite Hrun.
  cbn [fst snd]. split.
  - intros code Hr. destruct Hcases as [(text & -> & ->)|[_ Hne]].
    + injection Hr as <-. split; [done|]. split; [done|]. by exists text.
    + by destruct (Hne code).
  - intros evs' text Htr Hin. simpl in Htr. apply app_inv_head in Htr as <-.
    destruct Hcases as [(text' & -> & ->)|[HQ _]].
    + apply list_elem_of_singleton in Hin as [= ->]. done.
    + rewrite Forall_forall in HQ. destruct (HQ _ Hin).
Qed.

(** X9: whatever the input, and also when the run fails, every file [main]
    writes has a path [os.path.join(setsdir, name-arch)]; a path that does
    not lead to the file of one of these writes is left as it was; every
    path that existed before still exists afterwards, and the directories
    are the ones that were there. *)
Theorem main_frame `{Builtins} (args : Namespace) (w : world) :
  ∃ evs,
    trace (main args w).1 = trace w ++ evs ∧
    Forall (fun x => set_file_path (setsdir args) x.1) (writes_of evs) ∧
    same_shape (fs w) (fs (main args w).1) ∧
    ∀ p,
      (is_Some (fs w !! p) -> is_Some (fs (main args w).1 !! p)) ∧
      ((∀ q ls, (q, ls) ∈ writes_of evs ->
          resolve (fs w) q ≠ resolve (fs w) p) ->
       fs (main args w).1 !! p = fs w !! p).
Proof.
  destruct (main_events args w) as (evs & r & Hrun & Hcases). rewrite Hrun.
  exists evs. cbn [fst extend fs trace]. split; [done|]. split; [|split].
  - apply Forall_forall. intros [q ls] Hin. apply elem_of_writes_of in Hin.
    destruct Hcases as [(text & -> & _)|[HQ _]].
    + apply list_elem_of_singleton in Hin. discriminate.
    + rewrite Forall_forall in HQ. apply (HQ _ Hin).
  - apply same_shape_apply_writes.
  - intros p. split; [apply apply_writes_is_Some|].
    intros Hp. rewrite lookup_apply_writes.
    change (fs w !! p) with (lookup_path p (fs w)). unfold lookup_path.
    destruct (resolve (fs w) p) as [loc|] eqn:Hres; [|done].
    destruct (last_write (located (fs w) (writes_of evs)) loc)
      as [ls|] eqn:Hlw; [|done].
    exfalso. apply last_write_elem_of, elem_of_located_inv in Hlw
      as (q & Hin & Hq). apply (Hp q ls Hin). by rewrite Hq.
Qed.

(** ** Substrings *)

Lemma prefix_spec (sub s : string) :
  String.prefix sub s = true <-> ∃ post, s = sub +:+ post.
Proof.
  revert s. induction sub as [|c sub IH]; intros s.
  - split; [intros _; exists s; reflexivity|]. intros _. by destruct s.
  - destruct s as [|c' s]; simpl; [split; [done|intros [post [=]]]|].
    destruct (ascii_dec c c') as [->|Hne].
    + rewrite IH. split.
      * intros [post ->]. exists post. reflexivity.
      * intros [post Heq]. exists post.
        change (String c' s = String c' (sub +:+ post)) in Heq.
        by injection Heq.
    + split; [done|]. intros [post Heq].
      change (String c' s = String c (sub +:+ post)) in Heq.
      injection Heq as Hc _. by destruct Hne.
Qed.

Lemma contains_spec (sub s : string) :
  contains sub s = true <-> ∃ pre post, s = pre +:+ sub +:+ post.
Proof.
  induction s as [|c s IH]; cbn [contains]; rewrite orb_true_iff, prefix_spec.
  - split.
    + intros [[post ->]|[=]]. exists "", post. reflexivity.
    + intros ([|c pre] & post & Heq); [left; by exists post|].
      change ("" = String c (pre +:+ sub +:+ post)) in Heq. discriminate.
  - rewrite IH. split.
    + intros [[post ->]|(pre & post & ->)]; [exists "", post; reflexivity|].
      exists (String c pre), post. reflexivity.
    + intros ([|c' pre] & post & Heq); [left; by exists post|].
      right. change (String c s = String c' (pre +:+ sub +:+ post)) in Heq.
      injection Heq as _ ->. by exists pre, post.
Qed.

(** ** Further properties of the support resolver *)

(** X1: when [include_on] is a string (as the docstring has it) and nothing
    is excluded, [in] is the substring test: the package is supported
    exactly on the architectures whose name occurs inside that string. *)
Theorem is_supported_include_on_string (w : world) (d : list (pyval * pyval))
    (arch include_on : string) :
  entry_field (VDict d) "exclude_on" = None ->
  entry_field (VDict d) "include_on" = Some (VStr include_on) ->
  ∃ b : bool,
    (is_supported (VDict d) (VStr arch) w).2 = Ok b ∧
    (b = true <-> ∃ pre post, include_on = pre +:+ arch +:+ post).
Proof.
  intros Hex Hinc. simpl in Hex, Hinc. exists (contains arch include_on).
  split; [|apply contains_spec].
  rewrite is_supported_run. cbn [snd].
  unfold is_supported_value, py_get. by rewrite Hex, Hinc.
Qed.

Lemma is_supported_include_on_string_witness :
  ∃ b : bool,
    (is_supported (VDict [(VStr "include_on", VStr "x86_64")]) (VStr "x86")
       example_world).2 = Ok b ∧
    (b = true <-> ∃ pre post, "x86_64" = pre +:+ "x86" +:+ post).
Proof.
  exact (is_supported_include_on_string example_world
           [(VStr "include_on", VStr "x86_64")] "x86" "x86_64"
           eq_refl eq_refl).
Defined.

(** X2: after its print, the resolver raises [AttributeError] for an entry
    that is neither absent nor a mapping, and [TypeError] when [exclude_on]
    is [None] or a number, or when the architecture is not excluded and
    [include_on] is [None] or a number. *)
Theorem is_supported_raises (w : world) (entry : pyval) (arch : string) :
  (entry ≠ VNone -> (∀ d, entry ≠ VDict d) ->
   is_supported entry (VStr arch) w =
   (log (Stdout [entry; VStr arch]) w, Raise AttributeError)) ∧
  (∀ d v, entry = VDict d ->
     entry_field entry "exclude_on" = Some v -> scalar v ->
     is_supported entry (VStr arch) w =
     (log (Stdout [entry; VStr arch]) w, Raise TypeError)) ∧
  (∀ d ex v, entry = VDict d ->
     from_option id (VList []) (entry_field entry "exclude_on") = VList ex ->
     VStr arch ∉ ex ->
     entry_field entry "include_on" = Some v -> scalar v ->
     is_supported entry (VStr arch) w =
     (log (Stdout [entry; VStr arch]) w, Raise TypeError)).
Proof.
  split; [|split].
  - intros Hnone Hdict. rewrite is_supported_run. f_equal.
    destruct entry; try done. by destruct (Hdict d).
  - intros d v -> Hex Hv. rewrite is_supported_run. f_equal. simpl in Hex.
    unfold is_supported_value, py_get. rewrite Hex.
    by destruct v.
  - intros d ex v -> Hex Hnin Hinc Hv. rewrite is_supported_run. f_equal.
    simpl in Hex, Hinc. unfold is_supported_value, py_get. rewrite Hex, Hinc.
    cbn [mbind result_bind rbind py_in from_option id].
    destruct (existsb (py_eq (VStr arch)) ex) eqn:Hmem.
    + by apply existsb_py_eq_str in Hmem.
    + by destruct v.
Qed.

(** ** Further properties of the atom formatter *)

Lemma py_in_raises x c e : py_in x c = Raise e -> e = TypeError.
Proof. destruct c, x; simpl; congruence. Qed.

Lemma py_getitem_after_in k c :
  py_in (VStr k) c = Ok true ->
  (∃ v, py_getitem c k = Ok v) ∨ py_getitem c k = Raise TypeError.
Proof.
  destruct c; try discriminate; try (by right).
  rewrite py_in_str_dict. unfold py_getitem.
  destruct (dict_lookup (VStr k) d) as [v|]; [|discriminate]. left. by exists v.
Qed.

Lemma make_atom_bad_name `{Builtins} (name entry : pyval) :
  (∀ s, name ≠ VStr s) -> make_atom name entry = Raise TypeError.
Proof.
  intros Hname. unfold make_atom.
  set (pd := if negb (py_truthy entry) then VDict [] else entry).
  assert (∀ s, add_str name s = Raise TypeError) as Hadd.
  { intros s. destruct name; try reflexivity. by destruct (Hname s0). }
  assert (∀ s, str_add s name = Raise TypeError) as Hsadd.
  { intros s. destruct name; try reflexivity. by destruct (Hname s0). }
  destruct (py_in (VStr "version") pd) as [[|]|e] eqn:Hv;
    rsimpl.
  - by rewrite Hsadd.
  - destruct (py_in (VStr "overlay") pd) as [[|]|e] eqn:Ho;
      rsimpl.
    + destruct (py_getitem_after_in _ _ Ho) as [[o ->]| ->]; [|done].
      rsimpl. destruct (str_add "::" o) as [suffix|e] eqn:Hs; rsimpl.
      * by rewrite Hadd.
      * destruct o; try discriminate; by injection Hs as <-.
    + apply Hadd.
    + by rewrite (py_in_raises _ _ _ Ho).
  - by rewrite (py_in_raises _ _ _ Hv).
Qed.

(** X3: for a package name that is not a string (a number used as a YAML
    key), the formatter raises [TypeError], whatever the entry. *)
Theorem make_atom_name_not_str `{Builtins} (name entry : pyval) :
  (∀ s, name ≠ VStr s) -> make_atom name entry = Raise TypeError.
Proof. apply make_atom_bad_name. Qed.

Lemma make_atom_name_not_str_witness :
  @make_atom example_builtins (VInt 7) (VDict [(VStr "version", VStr "1")])
  = Raise TypeError.
Proof.
  apply (@make_atom_name_not_str example_builtins). discriminate.
Defined.

(** X4: an entry that is false in a condition (the empty string, the empty
    list, zero, [False]) is formatted like an absent one: the bare name. *)
Theorem make_atom_falsy_entry `{Builtins} (name : string) (entry : pyval) :
  py_truthy entry = false -> make_atom (VStr name) entry = Ok (name +:+ LF).
Proof. intros Hf. unfold make_atom. by rewrite Hf. Qed.

Lemma make_atom_falsy_entry_witness :
  @make_atom example_builtins (VStr "foo") (VStr "") = Ok ("foo" +:+ LF) ∧
  @make_atom example_builtins (VStr "foo") (VList []) = Ok ("foo" +:+ LF) ∧
  @make_atom example_builtins (VStr "foo") (VInt 0) = Ok ("foo" +:+ LF) ∧
  @make_atom example_builtins (VStr "foo") (VBool false) = Ok ("foo" +:+ LF).
Proof.
  split; [|split; [|split]];
    apply (@make_atom_falsy_entry example_builtins); reflexivity.
Defined.

(** The attributes the formatter finds are those of the entry. *)
Lemma py_getitem_entry_field (entry : pyval) (k : string) (v : pyval) :
  py_getitem (if negb (py_truthy entry) then VDict [] else entry) k = Ok v ->
  entry_field entry k = Some v.
Proof.
  destruct (py_truthy entry); cbn [negb]; [|done].
  destruct entry; try done. unfold py_getitem, entry_field.
  by destruct (dict_lookup (VStr k) d) as [v'|]; [intros [= ->]|].
Qed.

Lemma py_in_entry_field (entry : pyval) (k : string) :
  py_in (VStr k) (if negb (py_truthy entry) then VDict [] else entry)
  = Ok false ->
  entry_field entry k = None.
Proof.
  destruct entry; try done. destruct d as [|x d]; [done|].
  cbn [py_truthy length Nat.eqb negb]. rewrite py_in_str_dict.
  unfold entry_field. by destruct (dict_lookup (VStr k) (x :: d)).
Qed.

(** X5: whenever the formatter returns, for any name and entry, the name is
    a string, the overlay of the entry (if any) is a string, and the atom is
    the atom text of the specification for the name, the text of the version
    of the entry and its overlay, followed by one line feed. *)
Theorem make_atom_shape `{Builtins} (name entry : pyval) (atom : string) :
  make_atom name entry = Ok atom ->
  ∃ (n : string) (overlay : option string),
    name = VStr n ∧
    entry_field entry "overlay" = VStr <$> overlay ∧
    atom = atom_text n (py_str <$> entry_field entry "version") overlay +:+ LF.
Proof.
  intros Hok. destruct name as [| | | |n| |];
    try (rewrite make_atom_bad_name in Hok by done; discriminate).
  exists n. revert Hok. unfold make_atom.
  pose proof (py_getitem_entry_field entry) as Hget.
  pose proof (py_in_entry_field entry) as Hin.
  set (pd := if negb (py_truthy entry) then VDict [] else entry) in *.
  destruct (py_in (VStr "version") pd) as [[|]|e] eqn:Hv;
    rsimpl; cbn [str_add]; [| |done].
  - destruct (py_getitem pd "version") as [v|e] eqn:Hgv; rsimpl; [|done].
    rewrite (Hget _ _ Hgv).
    destruct (py_in (VStr "overlay") pd) as [[|]|e] eqn:Ho; rsimpl; [| |done].
    + destruct (py_getitem pd "overlay") as [[| | | |o| |]|e] eqn:Hgo;
        rsimpl; cbn [str_add add_str]; rsimpl; try done.
      intros [= <-]. exists (Some o). rewrite (Hget _ _ Hgo).
      split; [done|]. split; [done|]. simpl. by rewrite !append_assoc.
    + cbn [add_str]. intros [= <-]. exists None. rewrite (Hin _ Ho).
      split; [done|]. split; [done|]. simpl. by rewrite !append_assoc.
  - rewrite (Hin _ Hv).
    destruct (py_in (VStr "overlay") pd) as [[|]|e] eqn:Ho; rsimpl; [| |done].
    + destruct (py_getitem pd "overlay") as [[| | | |o| |]|e] eqn:Hgo;
        rsimpl; cbn [str_add add_str]; rsimpl; try done.
      intros [= <-]. exists (Some o). rewrite (Hget _ _ Hgo).
      split; [done|]. split; [done|]. simpl. by rewrite !append_assoc.
    + cbn [add_str]. intros [= <-]. exists None. rewrite (Hin _ Ho).
      by split.
Qed.

Lemma make_atom_shape_witness :
  ∃ (n : string) (overlay : option string),
    VStr "foo" = VStr n ∧
    Some (VStr "science") = VStr <$> overlay ∧
    "=foo-1.2::science" +:+ LF
    = atom_text n (Some "1.2") overlay +:+ LF.
Proof.
  apply (@make_atom_shape example_builtins (VStr "foo")
           (VDict [(VStr "version", VFloat float_1_2);
                   (VStr "overlay", VStr "science")])).
  reflexivity.
Defined.

(** ** Further properties of the loader *)

(** X6: the loader ends in an exception it does not catch, with no error
    line, when the path is a directory ([OSError], the existence test having
    passed) and when the document is not a mapping, such as the [None] of an
    empty file ([TypeError]). *)
Theorem parse_yaml_file_uncaught `{Builtins} (f : string) (w : world) :
  (fs w !! f = Some Dir -> parse_yaml_file f w = (w, Raise OSError)) ∧
  (∀ content y,
     fs w !! f = Some (File content) ->
     safe_load content = Loaded y ->
     (∀ d, y ≠ VDict d) ->
     parse_yaml_file f w = (w, Raise TypeError)).
Proof.
  split; [apply parse_yaml_file_directory|].
  intros content y Hf Hy Hnd.
  rewrite (parse_yaml_file_loaded f w content y Hf Hy).
  destruct y; try reflexivity. by destruct (Hnd d).
Qed.

Lemma parse_yaml_file_uncaught_witness :
  @parse_yaml_file edge_builtins "out" (world_with "") =
    (world_with "", Raise OSError) ∧
  @parse_yaml_file edge_builtins "sets.yml" (world_with "") =
    (world_with "", Raise TypeError).
Proof.
  split.
  - apply (proj1 (@parse_yaml_file_uncaught edge_builtins "out" (world_with ""))).
    reflexivity.
  - apply (proj2 (@parse_yaml_file_uncaught edge_builtins "sets.yml"
                    (world_with "")) "" VNone); [reflexivity|reflexivity|].
    discriminate.
Defined.

(** ** Further properties of the orchestrator *)

(** X7: when the input file does not exist [main] writes the error line for
    it and exits with status 1, whether or not the output directory
    exists. *)
Theorem main_missing_input `{Builtins} (args : Namespace) (w : world) :
  fs w !! yamlfile args = None ->
  main args w =
  (log (Stderr ("ERROR: input file " +:+ yamlfile args
                +:+ " does not exist!" +:+ LF)) w,
   Raise (SystemExit 1)).
Proof.
  intros Hf.
  rewrite (main_bind_parse args w _ _ (parse_yaml_file_not_found _ _ Hf)).
  by rewrite !append_assoc.
Qed.

Lemma main_missing_input_witness :
  @main example_builtins example_args (World ∅ []) =
  (World ∅ [Stderr ("ERROR: input file sets.yml does not exist!" +:+ LF)],
   Raise (SystemExit 1)).
Proof.
  exact (@main_missing_input example_builtins example_args (World ∅ []) eq_refl).
Defined.

(** X10: with an existing output directory, [main] succeeds without writing
    or printing when [eessi_sets] is empty, whatever [eessi_archs] holds,
    and when [eessi_archs] is the empty list, whatever the sets hold. *)
Theorem main_nothing_to_do `{Builtins} (args : Namespace) (w w0 : world)
    (archs sets : pyval) :
  parse_yaml_file (yamlfile args) w = (w0, Ok (archs, sets)) ->
  is_Some (fs w0 !! setsdir args) ->
  sets = VDict [] ∨ (archs = VList [] ∧ ∃ d, sets = VDict d) ->
  main args w = (w0, Ok tt).
Proof.
  intros Hparse Hdir Hempty. rewrite (main_bind_parse args w w0 _ Hparse).
  rewrite bool_decide_eq_true_2 by done.
  destruct Hempty as [->|[-> [d ->]]]; [reflexivity|].
  unfold write_set_files, mbind, M_bind, Mbind. simpl. clear Hparse.
  induction d as [|[k v] d IH]; [reflexivity|]. exact IH.
Qed.

Lemma main_nothing_to_do_witness :
  @main edge_builtins example_args (world_with no_sets_yaml)
    = (world_with no_sets_yaml, Ok tt) ∧
  @main edge_builtins example_args (world_with no_archs_yaml)
    = (world_with no_archs_yaml, Ok tt).
Proof.
  split.
  - apply (@main_nothing_to_do edge_builtins example_args _ _
             (VInt 5) (VDict [])); [reflexivity|by eexists|by left].
  - apply (@main_nothing_to_do edge_builtins example_args _ _
             (VList []) (VDict [(VStr "base", VInt 7)]));
      [reflexivity|by eexists|]. right. split; [done|by eexists].
Defined.

Lemma is_supported_raises_witness :
  is_supported (VList [VStr "x86_64"]) (VStr "x86_64") example_world =
    (log (Stdout [VList [VStr "x86_64"]; VStr "x86_64"]) example_world,
     Raise AttributeError) ∧
  is_supported (VDict [(VStr "exclude_on", VNone)]) (VStr "x86_64")
    example_world =
    (log (Stdout [VDict [(VStr "exclude_on", VNone)]; VStr "x86_64"])
       example_world, Raise TypeError) ∧
  is_supported (VDict [(VStr "include_on", VInt 64)]) (VStr "x86_64")
    example_world =
    (log (Stdout [VDict [(VStr "include_on", VInt 64)]; VStr "x86_64"])
       example_world, Raise TypeError).
Proof.
  split; [|split].
  - apply (proj1 (is_supported_raises example_world _ "x86_64"));
      [discriminate|]. intros d. discriminate.
  - by apply (proj1 (proj2 (is_supported_raises example_world _ "x86_64"))
                [(VStr "exclude_on", VNone)] VNone).
  - apply (proj2 (proj2 (is_supported_raises example_world _ "x86_64"))
             [(VStr "include_on", VInt 64)] [] (VInt 64));
      try done. apply not_elem_of_nil.
Defined.

Lemma main_exit_is_clean_witness :
  (1%Z = 1%Z ∧
   fs (@main example_builtins example_args
         (World (<["sets.yml" := File example_yaml]> ∅) [])).1
   = <["sets.yml" := File example_yaml]> ∅ ∧
   ∃ text,
     trace (@main example_builtins example_args
              (World (<["sets.yml" := File example_yaml]> ∅) [])).1
     = [] ++ [Stderr text]) ∧
  ((@main example_builtins example_args (World ∅ [])).2
     = Raise (SystemExit 1) ∧
   [Stderr ("ERROR: input file sets.yml does not exist!" +:+ LF)]
     = [Stderr ("ERROR: input file sets.yml does not exist!" +:+ LF)]).
Proof.
  split.
  - exact (proj1 (@main_exit_is_clean example_builtins example_args
                    (World (<["sets.yml" := File example_yaml]> ∅) []))
             1%Z eq_refl).
  - exact (proj2 (@main_exit_is_clean example_builtins example_args
                    (World ∅ []))
             [Stderr ("ERROR: input file sets.yml does not exist!" +:+ LF)]
             ("ERROR: input file sets.yml does not exist!" +:+ LF)
             eq_refl (list_elem_of_here _ _)).
Defined.

Lemma main_frame_witness :
  ∃ evs,
    trace (@main example_builtins example_args example_world).1 = evs ∧
    Forall (fun x => set_file_path "out" x.1) (writes_of evs) ∧
    fs (@main example_builtins example_args example_world).1 !! "sets.yml"
      = Some (File example_yaml) ∧
    is_Some (fs (@main example_builtins example_args example_world).1 !! "out").
Proof.
  destruct (@main_frame example_builtins example_args example_world)
    as (evs & Htrace & Hpaths & _ & Hframe).
  exists evs. split; [exact Htrace|]. split; [exact Hpaths|].
  assert (writes_of evs = [("out/base-x86_64", ["bar" +:+ LF]);
                           ("out/base-aarch64", ["bar" +:+ LF])]) as Hws.
  { change (trace (@main example_builtins example_args example_world).1
            = evs) in Htrace.
    rewrite <- Htrace. reflexivity. }
  split.
  - apply (proj2 (Hframe "sets.yml")). rewrite Hws. intros q ls Hin.
    apply elem_of_cons in Hin as [[= -> _]|Hin]; [discriminate|].
    apply list_elem_of_singleton in Hin as [= -> _]. discriminate.
  - apply (proj1 (Hframe "out")). by eexists.
Defined.

(** X11: after a successful run every path holds the lines of the last
    write, in loop order, to the file it leads to, and a path that leads to
    no file a pair writes holds what it held before. *)
Theorem main_final_files `{Builtins} (args : Namespace) (w : world)
    (archs : list string) (sets : list (string * list (pyval * pyval)))
    (p : string) :
  loads args w archs sets ->
  is_Some (fs w !! setsdir args) ->
  formats sets archs ->
  openable (fs w) (setsdir args) sets archs ->
  fs (main args w).1 !! p =
  match
    loc ← resolve (fs w) p;
    last_write (located (fs w) (expected_writes (setsdir args) sets archs)) loc
  with
  | Some ls => Some (File (String.concat "" ls))
  | None => fs w !! p
  end.
Proof.
  intros Hload Hdir Hok Hop.
  rewrite (main_typed_run args w archs sets Hload Hdir Hok Hop).
  cbn [fst extend fs]. rewrite writes_of_run, lookup_apply_writes.
  change (fs w !! p) with (lookup_path p (fs w)). unfold lookup_path.
  by destruct (resolve (fs w) p).
Qed.

Lemma collision_loads :
  @loads edge_builtins example_args (world_with collision_yaml)
    collision_archs collision_sets.
Proof.
  exists collision_yaml, collision_document. eexists.
  split; [reflexivity|]. split; [reflexivity|]. split; [reflexivity|].
  split; [reflexivity|]. repeat constructor.
Defined.

Lemma collision_formats : @formats edge_builtins collision_sets collision_archs.
Proof.
  intros s pkgs n e a Hs Hp Ha.
  apply elem_of_cons in Hs as [[= -> ->]|Hs];
    [|apply list_elem_of_singleton in Hs as [= -> ->]];
    apply list_elem_of_singleton in Hp as [= -> ->];
    (exists true; split; [reflexivity|]; intros _; by eexists).
Defined.

Lemma collision_openable :
  openable (fs (world_with collision_yaml)) (setsdir example_args)
    collision_sets collision_archs.
Proof.
  intros s pkgs a Hs Ha.
  apply elem_of_cons in Hs as [[= -> ->]|Hs];
    [|apply list_elem_of_singleton in Hs as [= -> ->]];
    (apply elem_of_cons in Ha as [->|Ha];
     [|apply list_elem_of_singleton in Ha as ->]); reflexivity.
Defined.

Lemma main_final_files_witness :
  fs (@main edge_builtins example_args (world_with collision_yaml)).1
    !! "out/a-b-c" = Some (File ("q" +:+ LF)) ∧
  fs (@main edge_builtins example_args (world_with collision_yaml)).1
    !! "./out/../out//a-b-c" = Some (File ("q" +:+ LF)) ∧
  fs (@main edge_builtins example_args (world_with collision_yaml)).1
    !! "out/a-c" = Some (File ("p" +:+ LF)) ∧
  fs (@main edge_builtins example_args (world_with collision_yaml)).1
    !! "sets.yml" = Some (File collision_yaml).
Proof.
  split; [|split; [|split]].
  - exact (@main_final_files edge_builtins example_args _ _ _ "out/a-b-c"
             collision_loads (ex_intro _ Dir eq_refl) collision_formats
             collision_openable).
  - exact (@main_final_files edge_builtins example_args _ _ _
             "./out/../out//a-b-c"
             collision_loads (ex_intro _ Dir eq_refl) collision_formats
             collision_openable).
  - exact (@main_final_files edge_builtins example_args _ _ _ "out/a-c"
             collision_loads (ex_intro _ Dir eq_refl) collision_formats
             collision_openable).
  - exact (@main_final_files edge_builtins example_args _ _ _ "sets.yml"
             collision_loads (ex_intro _ Dir eq_refl) collision_formats
             collision_openable).
Defined.

Lemma length_expected_writes `{Builtins} dir sets archs :
  length (expected_writes dir sets archs) = length sets * length archs.
Proof.
  unfold expected_writes. induction sets as [|[s pkgs] sets IH]; [reflexivity|].
  rewrite bind_cons, length_app, IH. simpl. f_equal.
  clear IH. induction archs as [|a archs IH]; [reflexivity|].
  rewrite bind_cons. simpl. by rewrite IH.
Qed.

(** X12: when every set file can be opened for writing, the events of a
    successful run are, for each set and each architecture in loop order,
    one resolver line per package of the set, then the write of the set
    file, then its [Created set file] line; the number of writes is the
    number of sets times the number of architectures. *)
Theorem main_trace `{Builtins} (args : Namespace) (w : world)
    (archs : list string) (sets : list (string * list (pyval * pyval))) :
  loads args w archs sets ->
  is_Some (fs w !! setsdir args) ->
  formats sets archs ->
  openable (fs w) (setsdir args) sets archs ->
  trace (main args w).1 =
    trace w ++
    (sets ≫= fun s => archs ≫= fun a =>
       ((fun p => Stdout [p.2; VStr a]) <$> s.2) ++
       [WriteFile (os_path_join (setsdir args) (s.1 +:+ "-" +:+ a))
          (expected_atoms s.2 (VStr a));
        Stdout [VStr ("Created set file "
                      +:+ os_path_join (setsdir args) (s.1 +:+ "-" +:+ a)
                      +:+ ".")]]) ∧
  length (writes_of (drop (length (trace w)) (trace (main args w).1)))
    = length sets * length archs.
Proof.
  intros Hload Hdir Hok Hop.
  rewrite (main_typed_run args w archs sets Hload Hdir Hok Hop).
  cbn [fst extend trace]. split; [reflexivity|].
  rewrite drop_app_length, writes_of_run. apply length_expected_writes.
Qed.

Lemma main_trace_witness :
  trace (@main example_builtins example_args example_world).1 =
    [Stdout [VNone; VStr "x86_64"];
     WriteFile "out/base-x86_64" ["bar" +:+ LF];
     Stdout [VStr "Created set file out/base-x86_64."];
     Stdout [VNone; VStr "aarch64"];
     WriteFile "out/base-aarch64" ["bar" +:+ LF];
     Stdout [VStr "Created set file out/base-aarch64."]] ∧
  length (writes_of (drop (length (trace example_world))
                       (trace (@main example_builtins example_args
                                 example_world).1))) = 1 * 2.
Proof.
  exact (@main_trace example_builtins example_args example_world
           example_archs example_sets example_loads
           (ex_intro _ Dir eq_refl) example_formats example_openable).
Defined.

Lemma writer_for_each_raise {A B} f0 (l1 : list A) (x : A) (l2 : list A)
    (l1' : list B) (body : A -> M unit) (evs : B -> list event) evx e :
  Forall2 (fun x y => writer f0 (body x) (evs y) (Ok tt)) l1 l1' ->
  writer f0 (body x) evx (Raise e) ->
  writer f0 (for_each (l1 ++ x :: l2) body) ((l1' ≫= evs) ++ evx) (Raise e).
Proof.
  intros Hgood Hbad. induction Hgood as [|y y' l1 l1' Hy _ IH].
  - simpl. by apply writer_bind_raise.
  - rewrite bind_cons, <- app_assoc. cbn [for_each app].
    eapply writer_bind_ok; [exact Hy|exact IH].
Qed.

(** X13: when a set without [packages] follows good sets whose files can be
    opened and there is at least one architecture, [main] ends with the
    exception of the subscription after having written exactly the files of
    the sets before it; they stay, each holding its lines when no two pairs
    write the same file. *)
Theorem main_partial_output `{Builtins} (args : Namespace) (w w0 : world)
    (a : string) (archs : list string)
    (good_items : list (pyval * pyval))
    (good : list (string * list (pyval * pyval)))
    (name bad : pyval) (rest : list (pyval * pyval)) (e : exn) :
  parse_yaml_file (yamlfile args) w =
    (w0, Ok (VList (VStr <$> a :: archs),
             VDict (good_items ++ (name, bad) :: rest))) ->
  is_Some (fs w0 !! setsdir args) ->
  sets_view good_items good ->
  formats good (a :: archs) ->
  openable (fs w0) (setsdir args) good (a :: archs) ->
  py_getitem bad "packages" = Raise e ->
  ∃ evs,
    main args w = (extend w0 evs, Raise e) ∧
    writes_of evs = expected_writes (setsdir args) good (a :: archs) ∧
    (NoDup (located (fs w0) (writes_of evs)).*1 ->
     ∀ p ls, (p, ls) ∈ writes_of evs ->
       fs (main args w).1 !! p = Some (File (String.concat "" ls))).
Proof.
  intros Hparse Hdir Hview Hok Hop Hbad.
  exists (good ≫= fun s => (a :: archs) ≫= set_file_events (setsdir args) s.1 s.2).
  assert (main args w =
          (extend w0 (good ≫= fun s =>
                        (a :: archs) ≫= set_file_events (setsdir args) s.1 s.2),
           Raise e)) as Hrun.
  { rewrite (main_bind_parse args w w0 _ Hparse).
    rewrite bool_decide_eq_true_2 by done.
    unfold write_set_files.
    refine (writer_bind_ok (fs w0) _ _ [] _ _ _ _ _ w0 (same_shape_refl _));
      [apply writer_lift|]. simpl.
    pose proof (writer_for_each_raise (fs w0) good_items (name, bad) rest good
                  (fun '(set_name, set) =>
                     elems ← lift (py_iter (VList (VStr <$> a :: archs)));
                     for_each elems
                       (fun arch => write_set_file (setsdir args) set_name set arch))
                  (fun s => (a :: archs) ≫= set_file_events (setsdir args) s.1 s.2)
                  [] e (writer_set_loops _ _ _ _ _ Hview Hok Hop)) as Hloops.
    rewrite app_nil_r in Hloops. apply Hloops.
    eapply (writer_bind_ok _ _ _ [] _ []); [apply writer_lift|].
    cbn [fmap list_fmap for_each].
    apply writer_bind_raise. unfold write_set_file. rewrite Hbad.
    apply writer_bind_raise, writer_lift. }
  split; [exact Hrun|]. split; [apply writes_of_run|].
  rewrite Hrun. cbn [fst extend fs]. rewrite writes_of_run.
  intros Hnd p ls Hin. apply fs_after_writes; [done|done|].
  apply elem_of_expected_writes_inv in Hin
    as (s & pkgs & a' & Hs & Ha & -> & _).
  by eapply Hop.
Qed.

Lemma main_partial_output_witness :
  ∃ evs,
    @main edge_builtins example_args (world_with partial_yaml)
      = (extend (world_with partial_yaml) evs,
         Raise (KeyError (VStr "packages"))) ∧
    writes_of evs = [("out/base-x86_64", ["bar" +:+ LF])] ∧
    fs (@main edge_builtins example_args (world_with partial_yaml)).1
      !! "out/base-x86_64" = Some (File ("bar" +:+ LF)).
Proof.
  destruct (@main_partial_output edge_builtins example_args
              (world_with partial_yaml) (world_with partial_yaml)
              "x86_64" []
              [(VStr "base", VDict [(VStr "packages", VDict [(VStr "bar", VNone)])])]
              example_sets (VStr "extra") (VDict []) []
              (KeyError (VStr "packages")))
    as (evs & Hrun & Hws & Hfs).
  - reflexivity.
  - by eexists.
  - repeat constructor.
  - intros s pkgs n e a Hs Hp Ha.
    apply list_elem_of_singleton in Hs as [= -> ->].
    apply list_elem_of_singleton in Hp as [= -> ->].
    exists true. split; [reflexivity|]. intros _. by eexists.
  - intros s pkgs a Hs Ha.
    apply list_elem_of_singleton in Hs as [= -> ->].
    apply list_elem_of_singleton in Ha as ->. reflexivity.
  - reflexivity.
  - exists evs. split; [exact Hrun|]. split; [exact Hws|].
    assert (NoDup (located (fs (world_with partial_yaml))
                     (writes_of evs)).*1) as Hnd.
    { rewrite Hws. apply NoDup_singleton. }
    apply (Hfs Hnd "out/base-x86_64" ["bar" +:+ LF]). rewrite Hws. left.
Defined.

(** X14: each function reads its own two attributes only.  Two entries that
    agree on [exclude_on] and [include_on] get the same answer from the
    resolver, whatever else they hold; two entries that agree on [version]
    and [overlay] get the same atom from the formatter. *)
Theorem attributes_read `{Builtins} (d d' : list (pyval * pyval))
    (name arch : pyval) :
  (entry_field (VDict d) "exclude_on" = entry_field (VDict d') "exclude_on" ->
   entry_field (VDict d) "include_on" = entry_field (VDict d') "include_on" ->
   is_supported_value (VDict d) arch = is_supported_value (VDict d') arch) ∧
  (entry_field (VDict d) "version" = entry_field (VDict d') "version" ->
   entry_field (VDict d) "overlay" = entry_field (VDict d') "overlay" ->
   make_atom name (VDict d) = make_atom name (VDict d')).
Proof.
  simpl. split.
  - intros Hex Hinc. unfold is_supported_value, py_get. by rewrite Hex, Hinc.
  - intros Hv Ho. unfold make_atom. rewrite !falsy_entry_is_empty.
    rewrite !py_in_str_dict. unfold py_getitem. by rewrite Hv, Ho.
Qed.

Lemma attributes_read_witness :
  is_supported_value
    (VDict [(VStr "version", VStr "1"); (VStr "exclude_on", VList [VStr "a"])])
    (VStr "a")
  = is_supported_value (VDict [(VStr "exclude_on", VList [VStr "a"])]) (VStr "a") ∧
  @make_atom example_builtins (VStr "foo")
    (VDict [(VStr "exclude_on", VList [VStr "a"]); (VStr "overlay", VStr "o")])
  = @make_atom example_builtins (VStr "foo") (VDict [(VStr "overlay", VStr "o")]).
Proof.
  split.
  - by apply (proj1 (@attributes_read example_builtins
                       [(VStr "version", VStr "1");
                        (VStr "exclude_on", VList [VStr "a"])]
                       [(VStr "exclude_on", VList [VStr "a"])]
                       VNone (VStr "a"))).
  - by apply (proj2 (@attributes_read example_builtins
                       [(VStr "exclude_on", VList [VStr "a"]);
                        (VStr "overlay", VStr "o")]
                       [(VStr "overlay", VStr "o")]
                       (VStr "foo") VNone)).
Defined.
